(** * corenlp/models.py: the annotation orchestrator [Document.annotate]

    A shallow embedding of the four Django models of
    [third-party/corenlp/models.py] and of the one method with behaviour,
    [Document.annotate], together with the properties of that method.

    The database is a record of four tables (lists of rows).  The method
    runs in a small state-and-exception monad over a [State] that holds
    the tables, the primary-key sequence of the Sentence table and the log
    of the calls made to the external CoreNLP service.  What the outside
    world does during one call (the answer of the service, a failure of
    the bulk insert) is a [World] given to the method.

    Conventions taken from the framework the code is written for
    (Django before 2.0 on PostgreSQL, as [ForeignKey] without [on_delete]
    and [ArrayField] require):
    - a [ForeignKey] declared without [on_delete] cascades on delete;
    - [QuerySet.bulk_create] returns at once on an empty list;
    - leaving [transaction.atomic()] through an exception restores the
      tables; a sequence and a call already made to an outside service
      are not undone.
    Every model is taken to have a table of its own (the setting
    [CORENLP_USE_TABLENAME_PREFIX] on). *)

From Stdlib Require Import List String ZArith Bool Lia Permutation Sorted.
Import ListNotations.
Open Scope string_scope.
Open Scope list_scope.

(** ** Data model *)

(** [**kwargs], handed through to the service untouched. *)
Definition Options := list (string * string).

(** A [FloatField] is only stored, never computed on: its binary64 bit
    pattern. *)
Definition Float := Z.

Module Document.
Record t := mk {
  id : string;                 (* primary key *)
  corpus_id : string;
  source : string;
  timestamp : option Z;        (* null=True *)
  title : string;
  gloss : string;
  metadata : string
}.
End Document.

Module Sentence.
(** [id] is the implicit auto-increment primary key: [None] on an
    object that was constructed and not yet inserted.  [doc] holds the
    primary key of the Document.  The column [searchable] is derived by
    the database and never set by the code; it is left out. *)
Record t := mk {
  id : option Z;
  corpus_id : string;
  doc : string;
  sentence_index : Z;
  words : list string;
  lemmas : list string;
  pos_tags : list string;
  ner_tags : list string;
  doc_char_begin : list Z;
  doc_char_end : list Z;
  dependencies : option string; (* null=True *)
  gloss : string
}.

Definition with_id (k : Z) (s : t) : t :=
  mk (Some k) (corpus_id s) (doc s) (sentence_index s) (words s) (lemmas s)
     (pos_tags s) (ner_tags s) (doc_char_begin s) (doc_char_end s)
     (dependencies s) (gloss s).
End Sentence.

Module Mention.
Record t := mk {
  id : Z;                      (* primary key *)
  corpus_id : string;
  doc : string;                (* ForeignKey(Document) *)
  sentence : Z;                (* ForeignKey(Sentence) *)
  token_begin : list Z;
  token_end : list Z;
  doc_char_begin : list Z;
  doc_char_end : list Z;
  doc_canonical_char_begin : list Z;
  doc_canonical_char_end : list Z;
  ner : string;
  best_entity : string;
  best_entity_score : option Float;
  unambiguous_link : bool;
  alt_entity : string;
  alt_entity_score : option Float;
  gloss : option string
}.
End Mention.

Module Relation.
Record t := mk {
  id : Z;                      (* primary key *)
  corpus_id : string;
  sentence : Z;                (* ForeignKey(Sentence) *)
  entity : option Z;           (* ForeignKey(Mention, null=True) *)
  entity_name : string;
  entity_gloss : string;
  slot_value : option Z;       (* ForeignKey(Mention, null=True) *)
  slot_value_name : string;
  slot_value_gloss : string;
  relation : string;
  score : Float
}.
End Relation.

(** What [CoreNLPService().annotate] returns, as far as [annotate] reads
    it.  The service itself lives in [corenlp/util.py]; here it is a
    component of the [World]. *)
Module CoreNLP.
Record Token := mkToken { character_span : Z * Z }.

Record AnnotatedSentence := mkSentence {
  sentence_index : Z;
  words : list string;
  lemmas : list string;
  pos_tags : list string;
  ner_tags : list string;
  tokens : list Token;
  depparse : option string;
  text : string;
  clean_text : string
}.

Record AnnotatedDocument := mkDocument { sentences : list AnnotatedSentence }.
End CoreNLP.

(** ** The database and the state of a run *)

Record Database := mkDatabase {
  documents : list Document.t;
  sentences : list Sentence.t;
  mentions : list Mention.t;
  relations : list Relation.t
}.

Record State := mkState {
  db : Database;
  sentence_id_seq : Z;                       (* next value of the sequence *)
  service_calls : list (string * Options)    (* calls made so far, oldest first *)
}.

Inductive Exception :=
| ServiceError (msg : string)
| DatabaseError (msg : string).

(** The outside world during one call of [annotate]. *)
Record World := mkWorld {
  (** the answer of the service to a text and options *)
  service : string -> Options -> Exception + CoreNLP.AnnotatedDocument;
  (** [Some k]: the backend raises during the bulk insert of Sentences,
      after [k] rows (at most) were written; [None]: the insert goes
      through *)
  bulk_create_fault : option nat
}.

(** ** State and exception monad *)

Inductive Result (A : Type) :=
| Ok (a : A)
| Raise (e : Exception).
Arguments Ok {A} a.
Arguments Raise {A} e.

Definition M (A : Type) := State -> Result A * State.

Definition ret {A} (a : A) : M A := fun st => (Ok a, st).

Definition bind {A B} (c : M A) (k : A -> M B) : M B := fun st =>
  match c st with
  | (Ok a, st') => k a st'
  | (Raise e, st') => (Raise e, st')
  end.

Notation "x <- c1 ;; c2" := (bind c1 (fun x => c2))
  (at level 61, c1 at next level, right associativity).
Notation "c1 ;; c2" := (bind c1 (fun _ => c2))
  (at level 61, right associativity).

Definition query {A} (f : Database -> A) : M A := fun st => (Ok (f (db st)), st).

Definition update (f : Database -> Database) : M unit := fun st =>
  (Ok tt, mkState (f (db st)) (sentence_id_seq st) (service_calls st)).

(** [with transaction.atomic(): body].  On an exception the tables go
    back to what they were on entry. *)
Definition atomic {A} (body : M A) : M A := fun st =>
  match body st with
  | (Ok a, st') => (Ok a, st')
  | (Raise e, st') =>
      (Raise e, mkState (db st) (sentence_id_seq st') (service_calls st'))
  end.

(** ** Querysets *)

Definition is_doc (self : Document.t) (s : Sentence.t) : bool :=
  String.eqb (Sentence.doc s) (Document.id self).

Definition mention_is_doc (self : Document.t) (m : Mention.t) : bool :=
  String.eqb (Mention.doc m) (Document.id self).

(** [Sentence.objects.filter(doc=self)] *)
Definition Sentence_filter_doc (self : Document.t) (d : Database) : list Sentence.t :=
  filter (is_doc self) (sentences d).

(** [Mention.objects.filter(doc=self)] *)
Definition Mention_filter_doc (self : Document.t) (d : Database) : list Mention.t :=
  filter (mention_is_doc self) (mentions d).

(** [.exists()] *)
Definition exists_ {A} (qs : list A) : bool :=
  match qs with
  | [] => false
  | _ :: _ => true
  end.

Definition pk_in (ks : list Z) (k : Z) : bool := existsb (Z.eqb k) ks.

Definition fk_in (ks : list Z) (k : option Z) : bool :=
  match k with
  | Some k => pk_in ks k
  | None => false
  end.

Definition Sentence_pks (l : list Sentence.t) : list Z :=
  flat_map (fun s => match Sentence.id s with Some k => [k] | None => [] end) l.

(** A Relation goes with a deleted Sentence ([ks]) or a deleted Mention
    ([km]) it points to. *)
Definition Relation_cascades (ks km : list Z) (r : Relation.t) : bool :=
  pk_in ks (Relation.sentence r)
  || fk_in km (Relation.entity r)
  || fk_in km (Relation.slot_value r).

(** The tables after [Sentence.objects.filter(doc=self).delete()]: gone
    are the Sentences of the document, the Mentions in them, and the
    Relations on either. *)
Definition delete_sentences_of (self : Document.t) (d : Database) : Database :=
  let ks := Sentence_pks (Sentence_filter_doc self d) in
  let km := map Mention.id
              (filter (fun m => pk_in ks (Mention.sentence m)) (mentions d)) in
  mkDatabase
    (documents d)
    (filter (fun s => negb (is_doc self s)) (sentences d))
    (filter (fun m => negb (pk_in ks (Mention.sentence m))) (mentions d))
    (filter (fun r => negb (Relation_cascades ks km r)) (relations d)).

(** The tables after [Mention.objects.filter(doc=self).delete()]: gone
    are the Mentions of the document and the Relations on them. *)
Definition delete_mentions_of (self : Document.t) (d : Database) : Database :=
  let km := map Mention.id (Mention_filter_doc self d) in
  mkDatabase
    (documents d)
    (sentences d)
    (filter (fun m => negb (mention_is_doc self m)) (mentions d))
    (filter (fun r => negb (Relation_cascades [] km r)) (relations d)).

Definition Sentence_delete_doc (self : Document.t) : M unit :=
  update (delete_sentences_of self).

Definition Mention_delete_doc (self : Document.t) : M unit :=
  update (delete_mentions_of self).

(** Primary keys drawn from the sequence, in the order of the list. *)
Fixpoint assign_pks (next : Z) (objs : list Sentence.t) : list Sentence.t :=
  match objs with
  | [] => []
  | o :: rest => Sentence.with_id next o :: assign_pks (next + 1) rest
  end.

(** [Sentence.objects.bulk_create(objs)] *)
Definition Sentence_bulk_create (w : World) (objs : list Sentence.t) : M unit :=
  fun st =>
    match objs with
    | [] => (Ok tt, st)
    | _ :: _ =>
        let written :=
          match bulk_create_fault w with
          | None => objs
          | Some k => firstn k objs
          end in
        let st' :=
          mkState
            (mkDatabase (documents (db st))
                        (sentences (db st) ++ assign_pks (sentence_id_seq st) written)
                        (mentions (db st))
                        (relations (db st)))
            (sentence_id_seq st + Z.of_nat (List.length written))
            (service_calls st) in
        match bulk_create_fault w with
        | None => (Ok tt, st')
        | Some _ => (Raise (DatabaseError "bulk_create"), st')
        end
    end.

(** [Mention.objects.bulk_create(objs)]; the rows carry their keys. *)
Definition Mention_bulk_create (objs : list Mention.t) : M unit :=
  update (fun d =>
    mkDatabase (documents d) (sentences d) (mentions d ++ objs) (relations d)).

(** [CoreNLPService().annotate(text, **kwargs)] *)
Definition CoreNLPService_annotate (w : World) (text : string) (kwargs : Options)
  : M CoreNLP.AnnotatedDocument :=
  fun st =>
    let st' := mkState (db st) (sentence_id_seq st)
                       (service_calls st ++ [(text, kwargs)]) in
    match service w text kwargs with
    | inl e => (Raise e, st')
    | inr annotated_document => (Ok annotated_document, st')
    end.

(** ** [Document.annotate] *)

(** The [Sentence(...)] constructor call of the list comprehension. *)
Definition new_Sentence (self : Document.t) (s : CoreNLP.AnnotatedSentence)
  : Sentence.t :=
  Sentence.mk
    None
    (Document.corpus_id self)
    (Document.id self)
    (CoreNLP.sentence_index s)
    (CoreNLP.words s)
    (CoreNLP.lemmas s)
    (CoreNLP.pos_tags s)
    (CoreNLP.ner_tags s)
    (map (fun t => fst (CoreNLP.character_span t)) (CoreNLP.tokens s))
    (map (fun t => snd (CoreNLP.character_span t)) (CoreNLP.tokens s))
    (CoreNLP.depparse s)
    (CoreNLP.clean_text s).

(** The body of the [with transaction.atomic():] block. *)
Definition annotate_block (w : World) (self : Document.t) (force : bool)
           (kwargs : Options) : M unit :=
  found <- query (fun d => exists_ (Sentence_filter_doc self d)) ;;
  (if found && force
   then Sentence_delete_doc self ;; Mention_delete_doc self
   else ret tt) ;;
  annotated_document <- CoreNLPService_annotate w (Document.gloss self) kwargs ;;
  Sentence_bulk_create w
    (map (new_Sentence self) (CoreNLP.sentences annotated_document)) ;;
  Mention_bulk_create [].

Definition annotate (w : World) (self : Document.t) (force : bool)
           (kwargs : Options) : M unit :=
  found <- query (fun d => exists_ (Sentence_filter_doc self d)) ;;
  if found && negb force then ret tt
  else atomic (annotate_block w self force kwargs).

(** ** What a call of [annotate] does, case by case *)

Definition has_sentences (self : Document.t) (st : State) : bool :=
  exists_ (Sentence_filter_doc self (db st)).

(** The tables when the service is called: after the two deletes when
    they run, untouched otherwise. *)
Definition cleared (self : Document.t) (force : bool) (st : State) : Database :=
  if has_sentences self st && force
  then delete_mentions_of self (delete_sentences_of self (db st))
  else db st.

(** The rows the bulk insert writes for a response. *)
Definition inserted (self : Document.t) (ad : CoreNLP.AnnotatedDocument)
           (st : State) : list Sentence.t :=
  assign_pks (sentence_id_seq st)
             (map (new_Sentence self) (CoreNLP.sentences ad)).

Definition called (self : Document.t) (kwargs : Options) (st : State)
  : list (string * Options) :=
  service_calls st ++ [(Document.gloss self, kwargs)].

(** The four ways a call can go. *)
Inductive annotate_cases (w : World) (self : Document.t) (force : bool)
          (kwargs : Options) (st : State) : Result unit * State -> Prop :=
| annotate_skipped :
    has_sentences self st = true ->
    force = false ->
    annotate_cases w self force kwargs st (Ok tt, st)
| annotate_service_failed e :
    has_sentences self st && negb force = false ->
    service w (Document.gloss self) kwargs = inl e ->
    annotate_cases w self force kwargs st
      (Raise e, mkState (db st) (sentence_id_seq st) (called self kwargs st))
| annotate_insert_failed ad k :
    has_sentences self st && negb force = false ->
    service w (Document.gloss self) kwargs = inr ad ->
    CoreNLP.sentences ad <> [] ->
    bulk_create_fault w = Some k ->
    annotate_cases w self force kwargs st
      (Raise (DatabaseError "bulk_create"),
       mkState (db st)
               (sentence_id_seq st
                + Z.of_nat (List.length
                              (firstn k (map (new_Sentence self)
                                             (CoreNLP.sentences ad)))))
               (called self kwargs st))
| annotate_succeeded ad :
    has_sentences self st && negb force = false ->
    service w (Document.gloss self) kwargs = inr ad ->
    CoreNLP.sentences ad = [] \/ bulk_create_fault w = None ->
    annotate_cases w self force kwargs st
      (Ok tt,
       mkState
         (mkDatabase (documents (db st))
                     (sentences (cleared self force st) ++ inserted self ad st)
                     (mentions (cleared self force st))
                     (relations (cleared self force st)))
         (sentence_id_seq st + Z.of_nat (List.length (CoreNLP.sentences ad)))
         (called self kwargs st)).

(** The keys in the Sentence table were drawn from its sequence. *)
Definition pks_below_seq (st : State) : Prop :=
  forall s k, In s (sentences (db st)) -> Sentence.id s = Some k ->
              (k < sentence_id_seq st)%Z.

(** A row written for the result [a] of the service: the constructed
    object with a key. *)
Definition row_of (self : Document.t) (a : CoreNLP.AnnotatedSentence)
           (s : Sentence.t) : Prop :=
  exists k, s = Sentence.with_id k (new_Sentence self a).

(** The fields of a Sentence [s] constructed for the result [a]. *)
Definition built_from (self : Document.t) (a : CoreNLP.AnnotatedSentence)
           (s : Sentence.t) : Prop :=
  Sentence.corpus_id s = Document.corpus_id self
  /\ Sentence.doc s = Document.id self
  /\ Sentence.sentence_index s = CoreNLP.sentence_index a
  /\ Sentence.words s = CoreNLP.words a
  /\ Sentence.lemmas s = CoreNLP.lemmas a
  /\ Sentence.pos_tags s = CoreNLP.pos_tags a
  /\ Sentence.ner_tags s = CoreNLP.ner_tags a
  /\ Sentence.dependencies s = CoreNLP.depparse a
  /\ Sentence.doc_char_begin s
     = map (fun t => fst (CoreNLP.character_span t)) (CoreNLP.tokens a)
  /\ Sentence.doc_char_end s
     = map (fun t => snd (CoreNLP.character_span t)) (CoreNLP.tokens a)
  /\ Sentence.gloss s = CoreNLP.clean_text a.

(** One entry per token in each of the five sequences of a result. *)
Definition result_parallel (a : CoreNLP.AnnotatedSentence) : bool :=
  let n := List.length (CoreNLP.tokens a) in
  Nat.eqb (List.length (CoreNLP.words a)) n
  && Nat.eqb (List.length (CoreNLP.lemmas a)) n
  && Nat.eqb (List.length (CoreNLP.pos_tags a)) n
  && Nat.eqb (List.length (CoreNLP.ner_tags a)) n.

(** [len(words) == len(lemmas) == len(pos_tags) == len(ner_tags)
    == len(doc_char_begin) == len(doc_char_end)] *)
Definition Sentence_parallel (s : Sentence.t) : bool :=
  Nat.eqb (List.length (Sentence.words s)) (List.length (Sentence.lemmas s))
  && Nat.eqb (List.length (Sentence.lemmas s)) (List.length (Sentence.pos_tags s))
  && Nat.eqb (List.length (Sentence.pos_tags s)) (List.length (Sentence.ner_tags s))
  && Nat.eqb (List.length (Sentence.ner_tags s))
             (List.length (Sentence.doc_char_begin s))
  && Nat.eqb (List.length (Sentence.doc_char_begin s))
             (List.length (Sentence.doc_char_end s)).

(** Sorting Sentences by [sentence_index] (insertion sort, stable). *)
Fixpoint insert_by_index (s : Sentence.t) (l : list Sentence.t)
  : list Sentence.t :=
  match l with
  | [] => [s]
  | h :: t =>
      if (Sentence.sentence_index s <=? Sentence.sentence_index h)%Z
      then s :: l
      else h :: insert_by_index s t
  end.

Definition sort_by_index (l : list Sentence.t) : list Sentence.t :=
  fold_right insert_by_index [] l.

Definition index_le (s1 s2 : Sentence.t) : Prop :=
  (Sentence.sentence_index s1 <= Sentence.sentence_index s2)%Z.

Definition index_lt (s1 s2 : Sentence.t) : Prop :=
  (Sentence.sentence_index s1 < Sentence.sentence_index s2)%Z.

(** The response lists its sentences by strictly increasing index. *)
Definition increasing_indices (ad : CoreNLP.AnnotatedDocument) : Prop :=
  StronglySorted Z.lt (map CoreNLP.sentence_index (CoreNLP.sentences ad)).

(** The rows a forced run on [self] removes from the Mention table: the
    Mentions of the document and, by cascade, the Mentions in one of its
    Sentences. *)
Definition Mention_removed (self : Document.t) (st : State) (m : Mention.t)
  : bool :=
  mention_is_doc self m
  || pk_in (Sentence_pks (Sentence_filter_doc self (db st))) (Mention.sentence m).

(** The rows it removes from the Relation table, all by cascade: the
    Relations in one of the Sentences of the document or on a removed
    Mention. *)
Definition Relation_removed (self : Document.t) (st : State) (r : Relation.t)
  : bool :=
  Relation_cascades
    (Sentence_pks (Sentence_filter_doc self (db st)))
    (map Mention.id (filter (Mention_removed self st) (mentions (db st))))
    r.

(** ** Example data *)

Definition example_document : Document.t :=
  Document.mk "doc-1" "default" "default" None "Obama"
              "Obama was president. He visited Paris." "".

Definition other_document : Document.t :=
  Document.mk "doc-2" "default" "default" None "Paris"
              "Paris is a city." "".

Definition span (b e : Z) : CoreNLP.Token := CoreNLP.mkToken (b, e).

Definition example_response : CoreNLP.AnnotatedDocument :=
  CoreNLP.mkDocument
    [ CoreNLP.mkSentence 0
        ["Obama"; "was"; "president"; "."]
        ["Obama"; "be"; "president"; "."]
        ["NNP"; "VBD"; "NN"; "."]
        ["PERSON"; "O"; "TITLE"; "O"]
        [span 0 5; span 6 9; span 10 19; span 19 20]
        None
        "Obama was president. "
        "Obama was president.";
      CoreNLP.mkSentence 1
        ["He"; "visited"; "Paris"; "."]
        ["he"; "visit"; "Paris"; "."]
        ["PRP"; "VBD"; "NNP"; "."]
        ["O"; "O"; "LOCATION"; "O"]
        [span 21 23; span 24 31; span 32 37; span 37 38]
        None
        "He visited Paris."
        "He visited Paris." ].

Definition example_world : World :=
  mkWorld (fun _ _ => inr example_response) None.

(** The service is down. *)
Definition down_world : World :=
  mkWorld (fun _ _ => inl (ServiceError "connection refused")) None.

(** The service answers, the insert breaks after one row. *)
Definition faulty_world : World :=
  mkWorld (fun _ _ => inr example_response) (Some 1%nat).

(** The service finds no sentence. *)
Definition silent_world : World :=
  mkWorld (fun _ _ => inr (CoreNLP.mkDocument [])) None.

(** A response whose first result has two words for one token. *)
Definition ragged_response : CoreNLP.AnnotatedDocument :=
  CoreNLP.mkDocument
    [ CoreNLP.mkSentence 0 ["Obama"; "was"] ["Obama"] ["NNP"] ["PERSON"]
        [span 0 5] None "Obama was" "Obama was" ].

Definition ragged_world : World :=
  mkWorld (fun _ _ => inr ragged_response) None.

(** The two results of [example_response], the second one first. *)
Definition reversed_response : CoreNLP.AnnotatedDocument :=
  CoreNLP.mkDocument (rev (CoreNLP.sentences example_response)).

Definition reversed_world : World :=
  mkWorld (fun _ _ => inr reversed_response) None.

Definition blank_document : Document.t :=
  Document.mk "doc-3" "default" "default" None "Empty" "" "".

(** Both documents stored, nothing annotated yet. *)
Definition fresh_state : State :=
  mkState (mkDatabase [example_document; other_document] [] [] []) 1 [].

Definition other_sentence : Sentence.t :=
  Sentence.mk (Some 7%Z) "default" "doc-2" 0
              ["Paris"; "is"; "a"; "city"; "."]
              ["Paris"; "be"; "a"; "city"; "."]
              ["NNP"; "VBZ"; "DT"; "NN"; "."]
              ["LOCATION"; "O"; "O"; "O"; "O"]
              [0; 6; 9; 11; 15]%Z [5; 8; 10; 15; 16]%Z
              None "Paris is a city.".

Definition example_mention (k sent : Z) (doc nertag entity text : string)
  : Mention.t :=
  Mention.mk k "default" doc sent [] [] [] [] [] [] nertag entity None true
             "" None (Some text).

Definition example_relation : Relation.t :=
  Relation.mk 100 "default" 1 (Some 10%Z) "Barack_Obama" "Obama"
              (Some 11%Z) "president" "president" "has_title" 0%Z.

(** The first document annotated once, with mentions and a relation
    added by a later pipeline; the second document has a sentence and a
    mention of its own. *)
Definition annotated_state : State :=
  let st := snd (annotate example_world example_document false [] fresh_state) in
  mkState
    (mkDatabase
       (documents (db st))
       (sentences (db st) ++ [other_sentence])
       [ example_mention 10 1 "doc-1" "PERSON" "Barack_Obama" "Obama";
         example_mention 11 1 "doc-1" "TITLE" "president" "president";
         example_mention 12 7 "doc-2" "LOCATION" "Paris" "Paris" ]
       [ example_relation ])
    8
    (service_calls st).

(** ** [__str__] and [__repr__]

    For the slices, a [string] holds the UTF-8 encoding of the Python
    string: a character is a byte that is not a continuation byte
    ([10xxxxxx]), with the continuation bytes that follow it.  [None] as
    a result of a method of Mention is Python's [None] for [__str__],
    which hands the null gloss on as it is, and the [TypeError] of
    slicing [None] for [__repr__]. *)




Definition Document_str (d : Document.t) : string := Document.gloss d.

Definition Document_repr (d : Document.t) : string :=
  ("[Document " ++ Document.id d ++ " (" ++ Document.title d ++ ")]")%string.

Definition Sentence_str (s : Sentence.t) : string := Sentence.gloss s.


Definition Mention_str (m : Mention.t) : option string := Mention.gloss m.


Definition Relation_str (r : Relation.t) : string :=
  (Relation.entity_gloss r ++ " " ++ Relation.relation r ++ " "
   ++ Relation.slot_value_gloss r)%string.

Definition Relation_repr (r : Relation.t) : string :=
  ("[Relation " ++ Relation.entity_gloss r ++ " " ++ Relation.relation r ++ " "
   ++ Relation.slot_value_gloss r ++ "]")%string.

(** ** Integrity of the tables *)

(** No two stored Sentences share a primary key. *)
Definition Sentence_pks_unique (d : Database) : Prop :=
  NoDup (Sentence_pks (sentences d)).

Definition Sentence_stored (d : Database) (k : Z) : Prop :=
  exists s, In s (sentences d) /\ Sentence.id s = Some k.

Definition Mention_stored (d : Database) (k : Z) : Prop :=
  exists m, In m (mentions d) /\ Mention.id m = k.

Definition fk_stored (stored : Z -> Prop) (k : option Z) : Prop :=
  match k with
  | Some k => stored k
  | None => True
  end.

(** The foreign keys into the Sentence and Mention tables point to
    stored rows. *)
Definition references_ok (d : Database) : Prop :=
  (forall m, In m (mentions d) -> Sentence_stored d (Mention.sentence m))
  /\ (forall r, In r (relations d) ->
                Sentence_stored d (Relation.sentence r)
                /\ fk_stored (Mention_stored d) (Relation.entity r)
                /\ fk_stored (Mention_stored d) (Relation.slot_value r)).

(** The first document not annotated, with a Mention filed under it that
    sits in the Sentence of the second document. *)
Definition stale_state : State :=
  mkState
    (mkDatabase
       [example_document; other_document]
       [other_sentence]
       [ example_mention 20 7 "doc-1" "PERSON" "Barack_Obama" "Obama" ]
       [])
    8
    [].





(** Finds the stored row a key names, among the first three of a table. *)
Ltac stored_row :=
  vm_compute;
  first [ eexists; split; [left; reflexivity|reflexivity]
        | eexists; split; [right; left; reflexivity|reflexivity]
        | eexists; split; [right; right; left; reflexivity|reflexivity] ].

(** * Properties *)

Lemma annotate_skip w self kwargs st :
  has_sentences self st = true ->
  annotate w self false kwargs st = (Ok tt, st).
Proof.
  unfold annotate, bind, query, has_sentences. intros ->. reflexivity.
Qed.

Lemma annotate_service_error w self force kwargs st e :
  has_sentences self st && negb force = false ->
  service w (Document.gloss self) kwargs = inl e ->
  annotate w self force kwargs st
  = (Raise e, mkState (db st) (sentence_id_seq st) (called self kwargs st)).
Proof.
  unfold annotate, annotate_block, bind, query, atomic, has_sentences, called,
    CoreNLPService_annotate, Sentence_delete_doc, Mention_delete_doc, update, ret.
  intros H Hs. rewrite H.
  destruct (exists_ (Sentence_filter_doc self (db st)) && force);
    simpl; rewrite Hs; reflexivity.
Qed.

Lemma annotate_insert_error w self force kwargs st ad k :
  has_sentences self st && negb force = false ->
  service w (Document.gloss self) kwargs = inr ad ->
  CoreNLP.sentences ad <> [] ->
  bulk_create_fault w = Some k ->
  annotate w self force kwargs st
  = (Raise (DatabaseError "bulk_create"),
     mkState (db st)
             (sentence_id_seq st
              + Z.of_nat (List.length
                            (firstn k (map (new_Sentence self)
                                           (CoreNLP.sentences ad)))))
             (called self kwargs st)).
Proof.
  unfold annotate, annotate_block, bind, query, atomic, has_sentences, called,
    CoreNLPService_annotate, Sentence_bulk_create,
    Sentence_delete_doc, Mention_delete_doc, update, ret.
  intros H Hs Hne Hf. rewrite H.
  destruct (CoreNLP.sentences ad) as [|a l] eqn:El; [congruence|].
  destruct (exists_ (Sentence_filter_doc self (db st)) && force);
    simpl; rewrite Hs, El; simpl; rewrite Hf; reflexivity.
Qed.

Lemma annotate_success w self force kwargs st ad :
  has_sentences self st && negb force = false ->
  service w (Document.gloss self) kwargs = inr ad ->
  CoreNLP.sentences ad = [] \/ bulk_create_fault w = None ->
  annotate w self force kwargs st
  = (Ok tt,
     mkState
       (mkDatabase (documents (db st))
                   (sentences (cleared self force st) ++ inserted self ad st)
                   (mentions (cleared self force st))
                   (relations (cleared self force st)))
       (sentence_id_seq st + Z.of_nat (List.length (CoreNLP.sentences ad)))
       (called self kwargs st)).
Proof.
  unfold cleared, inserted, called, has_sentences.
  unfold annotate, annotate_block, bind, query, atomic,
    CoreNLPService_annotate, Sentence_bulk_create, Mention_bulk_create,
    Sentence_delete_doc, Mention_delete_doc, update, ret.
  intros H Hs Hok. rewrite H.
  destruct (exists_ (Sentence_filter_doc self (db st)) && force) eqn:Ef;
    simpl; rewrite Hs;
    (destruct (CoreNLP.sentences ad) as [|a l] eqn:El;
     [ simpl; rewrite !app_nil_r, Z.add_0_r; try reflexivity;
       destruct st as [[? ? ? ?] ? ?]; reflexivity
     | destruct Hok as [Hok|Hok]; [discriminate|];
       simpl; rewrite Hok; simpl; rewrite !app_nil_r, length_map;
       reflexivity ]).
Qed.

Lemma annotate_total w self force kwargs st :
  annotate_cases w self force kwargs st (annotate w self force kwargs st).
Proof.
  destruct (has_sentences self st && negb force) eqn:H.
  - apply andb_prop in H as [Hh Hf].
    apply negb_true_iff in Hf. subst force.
    rewrite annotate_skip by assumption. now constructor.
  - destruct (service w (Document.gloss self) kwargs) as [e|ad] eqn:Hs.
    + erewrite annotate_service_error by eassumption. now constructor.
    + destruct (CoreNLP.sentences ad) as [|a l] eqn:El.
      * erewrite annotate_success by (eauto). now constructor; auto.
      * destruct (bulk_create_fault w) as [k|] eqn:Hf.
        -- erewrite annotate_insert_error by (eauto; congruence).
           econstructor; eauto; congruence.
        -- erewrite annotate_success by (eauto). now constructor; auto.
Qed.

(** [atomic] gives the tables back whatever its body did to them. *)
Lemma atomic_rollback {A} (body : M A) st e st' :
  atomic body st = (Raise e, st') -> db st' = db st.
Proof.
  unfold atomic. destruct (body st) as [[a|e'] st1]; intros H; inversion H.
  reflexivity.
Qed.

(** Without the transaction a failed forced run would leave the deletes
    behind: here the two Sentences, two Mentions and the Relation of the
    first document are gone when the service turns out to be down. *)
Example annotate_block_leaves_partial_state :
  let st' := snd (annotate_block down_world example_document true []
                                 annotated_state) in
  sentences (db st') = [other_sentence]
  /\ List.length (mentions (db st')) = 1%nat
  /\ relations (db st') = []
  /\ List.length (sentences (db annotated_state)) = 3%nat.
Proof. vm_compute. repeat split. Qed.

(** C1. When the call of the service fails, or the bulk insert of the
    Sentences fails, during [annotate] with [force=True], the call raises
    and the four tables are what they were before the call: nothing that
    the block deleted stays deleted and nothing that it inserted stays
    inserted.  In particular the Sentences and Mentions of a document that
    had Sentences are exactly the ones it had. *)
Theorem annotate_force_failure_rolls_back w self kwargs st :
  (exists e, service w (Document.gloss self) kwargs = inl e)
  \/ (exists ad k, service w (Document.gloss self) kwargs = inr ad
                   /\ CoreNLP.sentences ad <> []
                   /\ bulk_create_fault w = Some k) ->
  (exists e, fst (annotate w self true kwargs st) = Raise e)
  /\ db (snd (annotate w self true kwargs st)) = db st
  /\ Sentence_filter_doc self (db (snd (annotate w self true kwargs st)))
     = Sentence_filter_doc self (db st)
  /\ Mention_filter_doc self (db (snd (annotate w self true kwargs st)))
     = Mention_filter_doc self (db st).
Proof.
  assert (Hg : has_sentences self st && negb true = false)
    by apply andb_false_r.
  intros [[e He]|(ad & k & Hs & Hne & Hf)].
  - rewrite (annotate_service_error _ _ _ _ _ _ Hg He). simpl. eauto.
  - rewrite (annotate_insert_error _ _ _ _ _ _ _ Hg Hs Hne Hf). simpl. eauto.
Qed.

Lemma annotate_force_failure_rolls_back_witness :
  has_sentences example_document annotated_state = true
  /\ (exists e, fst (annotate down_world example_document true []
                              annotated_state) = Raise e)
  /\ db (snd (annotate faulty_world example_document true []
                       annotated_state)) = db annotated_state.
Proof.
  split; [reflexivity|]. split.
  - apply (annotate_force_failure_rolls_back down_world example_document []
                                             annotated_state).
    left. eexists. reflexivity.
  - apply (annotate_force_failure_rolls_back faulty_world example_document []
                                             annotated_state).
    right. exists example_response, 1%nat.
    split; [reflexivity|]. split; [discriminate|reflexivity].
Defined.

(** ** Rows written by the bulk insert *)

Lemma assign_pks_In n objs s :
  In s (assign_pks n objs) ->
  exists o k, In o objs /\ (n <= k)%Z /\ s = Sentence.with_id k o.
Proof.
  revert n. induction objs as [|o objs IH]; simpl; intros n H; [easy|].
  destruct H as [<-|H].
  - exists o, n. split; [now left|]. split; [lia|reflexivity].
  - destruct (IH _ H) as (o' & k & Ho & Hk & ->).
    exists o', k. split; [now right|]. split; [lia|reflexivity].
Qed.

Lemma assign_pks_rows self n l :
  Forall2 (row_of self) l (assign_pks n (map (new_Sentence self) l)).
Proof.
  revert n. induction l as [|a l IH]; simpl; intros n; constructor; auto.
  now exists n.
Qed.

Lemma row_of_built_from self a s : row_of self a s -> built_from self a s.
Proof. intros [k ->]. repeat split. Qed.

Lemma inserted_is_doc self ad st s :
  In s (inserted self ad st) -> is_doc self s = true.
Proof.
  unfold inserted. intros H.
  destruct (assign_pks_In _ _ _ H) as (o & k & Ho & _ & ->).
  apply in_map_iff in Ho as (a & <- & _). apply String.eqb_refl.
Qed.

Lemma inserted_pk self ad st s :
  In s (inserted self ad st) ->
  exists k, Sentence.id s = Some k /\ (sentence_id_seq st <= k)%Z.
Proof.
  unfold inserted. intros H.
  destruct (assign_pks_In _ _ _ H) as (o & k & _ & Hk & ->).
  now exists k.
Qed.

Lemma filter_all {A} (f : A -> bool) l :
  (forall x, In x l -> f x = true) -> filter f l = l.
Proof.
  induction l as [|a l IH]; simpl; intros H; [reflexivity|].
  rewrite (H a) by now left. f_equal. apply IH. intros; apply H. now right.
Qed.

Lemma filter_none {A} (f : A -> bool) l :
  (forall x, In x l -> f x = false) -> filter f l = [].
Proof.
  induction l as [|a l IH]; simpl; intros H; [reflexivity|].
  rewrite (H a) by now left. apply IH. intros; apply H. now right.
Qed.

Lemma exists_filter {A} (f : A -> bool) l x :
  In x l -> f x = true -> exists_ (filter f l) = true.
Proof.
  intros Hin Hf. destruct (filter f l) eqn:E; [|reflexivity].
  assert (In x (filter f l)) by (apply filter_In; auto).
  rewrite E in *. contradiction.
Qed.

(** The Sentences of the document among the rows left by the deletes
    when they ran, and all of them otherwise. *)
Lemma cleared_sentences_forced self st :
  has_sentences self st = true ->
  sentences (cleared self true st)
  = filter (fun s => negb (is_doc self s)) (sentences (db st)).
Proof. unfold cleared. intros ->. reflexivity. Qed.

Lemma cleared_not_found self force st :
  has_sentences self st = false -> cleared self force st = db st.
Proof. unfold cleared. intros ->. reflexivity. Qed.

Lemma not_found_no_sentence self st :
  has_sentences self st = false -> Sentence_filter_doc self (db st) = [].
Proof.
  unfold has_sentences. destruct (Sentence_filter_doc self (db st)); easy.
Qed.

(** Whenever the service is reached, the document has no Sentence left
    in the tables the insert adds to. *)
Lemma cleared_has_none self force st :
  has_sentences self st && negb force = false ->
  filter (is_doc self) (sentences (cleared self force st)) = [].
Proof.
  intros H. destruct (has_sentences self st) eqn:Hh.
  - destruct force; [|discriminate].
    rewrite cleared_sentences_forced by assumption.
    apply filter_none. intros x Hx. apply filter_In in Hx as [_ Hx].
    now apply negb_true_iff.
  - rewrite cleared_not_found by assumption.
    now apply not_found_no_sentence.
Qed.

Lemma success_sentences_of self force st ad :
  has_sentences self st && negb force = false ->
  filter (is_doc self) (sentences (cleared self force st) ++ inserted self ad st)
  = inserted self ad st.
Proof.
  intros H. rewrite filter_app, cleared_has_none by assumption. simpl.
  apply filter_all. intros x. apply inserted_is_doc.
Qed.

(** C2, as amended.  On a document that has at least one Sentence,
    [annotate] without [force] returns at once and leaves the whole state
    as it was: no call of the service, no row created, deleted or changed.
    A second unforced call after a successful first one is such a no-op
    whenever the first one leaves the document with a Sentence, that is
    when the document had one already or the service returned at least
    one result. *)
Theorem annotate_unforced_noop w self kwargs st :
  has_sentences self st = true
  \/ (exists ad, service w (Document.gloss self) kwargs = inr ad
                 /\ CoreNLP.sentences ad <> []
                 /\ bulk_create_fault w = None) ->
  (has_sentences self st = true ->
   annotate w self false kwargs st = (Ok tt, st))
  /\ fst (annotate w self false kwargs st) = Ok tt
  /\ forall w' kwargs',
       annotate w' self false kwargs' (snd (annotate w self false kwargs st))
       = (Ok tt, snd (annotate w self false kwargs st)).
Proof.
  intros H. split; [apply annotate_skip|].
  destruct (has_sentences self st) eqn:Hh.
  - rewrite annotate_skip by assumption. simpl. split; [reflexivity|].
    intros. now apply annotate_skip.
  - destruct H as [H|(ad & Hs & Hne & Hf)]; [discriminate|].
    assert (Hg : has_sentences self st && negb false = false)
      by (rewrite Hh; reflexivity).
    rewrite (annotate_success _ _ _ _ _ _ Hg Hs (or_intror Hf)). simpl.
    split; [reflexivity|]. intros. apply annotate_skip.
    unfold has_sentences, Sentence_filter_doc. simpl.
    destruct (inserted self ad st) as [|s l] eqn:Ei.
    + unfold inserted in Ei.
      destruct (CoreNLP.sentences ad); [congruence|discriminate].
    + apply exists_filter with (x := s).
      * apply in_or_app. right. now left.
      * apply (inserted_is_doc self ad st). rewrite Ei. now left.
Qed.

Lemma annotate_unforced_noop_witness :
  fst (annotate example_world example_document false [] fresh_state) = Ok tt
  /\ annotate silent_world example_document false []
       (snd (annotate example_world example_document false [] fresh_state))
     = (Ok tt, snd (annotate example_world example_document false []
                             fresh_state)).
Proof.
  assert (H : has_sentences example_document fresh_state = true
              \/ (exists ad,
                     service example_world (Document.gloss example_document) []
                     = inr ad
                     /\ CoreNLP.sentences ad <> []
                     /\ bulk_create_fault example_world = None)).
  { right. exists example_response.
    split; [reflexivity|]. split; [discriminate|reflexivity]. }
  destruct (annotate_unforced_noop example_world example_document []
                                   fresh_state H) as (_ & H1 & H2).
  split; [exact H1|apply H2].
Defined.

(** C2 as stated fails: after a successful first call for which the
    service found no sentence, the second unforced call is not a no-op.
    It calls the service again, and writes rows when the service then
    answers with sentences. *)
Lemma second_annotate_after_empty_response :
  let st1 := snd (annotate silent_world example_document false [] fresh_state) in
  fst (annotate silent_world example_document false [] fresh_state) = Ok tt
  /\ service_calls (snd (annotate silent_world example_document false [] st1))
     <> service_calls st1
  /\ sentences (db (snd (annotate example_world example_document false [] st1)))
     <> sentences (db st1).
Proof. vm_compute. repeat split; discriminate. Qed.

(** ** A successful run *)

(** A call that returns normally either skipped or got an answer from
    the service and wrote it. *)
Lemma annotate_ok_inv w self force kwargs st :
  fst (annotate w self force kwargs st) = Ok tt ->
  has_sentences self st && negb force = false ->
  exists ad,
    service w (Document.gloss self) kwargs = inr ad
    /\ (CoreNLP.sentences ad = [] \/ bulk_create_fault w = None)
    /\ snd (annotate w self force kwargs st)
       = mkState
           (mkDatabase (documents (db st))
                       (sentences (cleared self force st) ++ inserted self ad st)
                       (mentions (cleared self force st))
                       (relations (cleared self force st)))
           (sentence_id_seq st + Z.of_nat (List.length (CoreNLP.sentences ad)))
           (called self kwargs st).
Proof.
  intros Hok Hg.
  destruct (service w (Document.gloss self) kwargs) as [e|ad] eqn:Hs.
  - rewrite (annotate_service_error _ _ _ _ _ _ Hg Hs) in Hok. discriminate.
  - exists ad. split; [reflexivity|].
    destruct (CoreNLP.sentences ad) as [|a l] eqn:El.
    + rewrite (annotate_success _ _ _ _ _ ad Hg Hs) by (left; exact El).
      rewrite El. auto.
    + destruct (bulk_create_fault w) as [k|] eqn:Hf.
      * rewrite (annotate_insert_error _ _ _ _ _ ad k Hg Hs) in Hok
          by (congruence || assumption).
        discriminate.
      * rewrite (annotate_success _ _ _ _ _ ad Hg Hs) by now right.
        rewrite El. auto.
Qed.

Lemma mentions_cleared_forced self st m :
  has_sentences self st = true ->
  In m (mentions (cleared self true st)) ->
  In m (mentions (db st)) /\ mention_is_doc self m = false.
Proof.
  unfold cleared. intros -> H. simpl in H.
  apply filter_In in H as [H Hm]. apply filter_In in H as [H _].
  split; [assumption|]. now apply negb_true_iff.
Qed.

(** The block of a forced run on a document with Sentences, stopped by
    an exception of the service: the two deletes are done, nothing
    else. *)
Lemma annotate_block_stopped_by_service w self kwargs st e :
  has_sentences self st = true ->
  service w (Document.gloss self) kwargs = inl e ->
  annotate_block w self true kwargs st
  = (Raise e,
     mkState (delete_mentions_of self (delete_sentences_of self (db st)))
             (sentence_id_seq st)
             (called self kwargs st)).
Proof.
  unfold has_sentences, called.
  unfold annotate_block, bind, query, CoreNLPService_annotate,
    Sentence_delete_doc, Mention_delete_doc, update.
  intros Hh Hs. rewrite Hh. simpl. rewrite Hs. reflexivity.
Qed.

(** C3. A successful [annotate] with [force=True] on a document that has
    Sentences got a response from the service, and afterwards the
    Sentences of the document are exactly the rows written for that
    response: one stored row per result, in the order of the response,
    with every field as the result gives it and a key drawn from the
    sequence.  No Mention row of the document is left, and, the keys of
    the table being below its sequence, none of the Sentence rows that the
    document had is among the rows of the table.  The deletes come first:
    the block calls the service with the Sentences and Mentions of the
    document already gone, as the state of a block that the service stops
    with an exception shows. *)
Theorem annotate_force_replaces w self kwargs st :
  has_sentences self st = true ->
  fst (annotate w self true kwargs st) = Ok tt ->
  exists ad,
    service w (Document.gloss self) kwargs = inr ad
    /\ Forall2 (built_from self) (CoreNLP.sentences ad)
               (Sentence_filter_doc self
                  (db (snd (annotate w self true kwargs st))))
    /\ Forall (fun s => exists k, Sentence.id s = Some k
                                  /\ (sentence_id_seq st <= k)%Z)
              (Sentence_filter_doc self
                 (db (snd (annotate w self true kwargs st))))
    /\ Sentence_filter_doc self (db (snd (annotate w self true kwargs st)))
       = inserted self ad st
    /\ Mention_filter_doc self (db (snd (annotate w self true kwargs st))) = []
    /\ (forall m, In m (Mention_filter_doc self (db st)) ->
                  ~ In m (mentions (db (snd (annotate w self true kwargs st)))))
    /\ (pks_below_seq st ->
        forall s, In s (Sentence_filter_doc self (db st)) ->
                  ~ In s (sentences (db (snd (annotate w self true kwargs st)))))
    /\ (forall w' e,
          service w' (Document.gloss self) kwargs = inl e ->
          fst (annotate_block w' self true kwargs st) = Raise e
          /\ service_calls (snd (annotate_block w' self true kwargs st))
             = service_calls st ++ [(Document.gloss self, kwargs)]
          /\ Sentence_filter_doc self
               (db (snd (annotate_block w' self true kwargs st))) = []
          /\ Mention_filter_doc self
               (db (snd (annotate_block w' self true kwargs st))) = []).
Proof.
  intros Hh Hok.
  assert (Hg : has_sentences self st && negb true = false)
    by apply andb_false_r.
  assert (Hc : cleared self true st
               = delete_mentions_of self (delete_sentences_of self (db st)))
    by (unfold cleared; now rewrite Hh).
  assert (Hm : Mention_filter_doc self (cleared self true st) = []).
  { apply filter_none. intros m Hin.
    now apply (mentions_cleared_forced _ _ _ Hh) in Hin as [_ Hn]. }
  destruct (annotate_ok_inv _ _ _ _ _ Hok Hg) as (ad & Hs & _ & ->).
  exists ad. split; [assumption|].
  unfold Sentence_filter_doc at 1 2 3. unfold Mention_filter_doc at 1. simpl.
  rewrite (success_sentences_of _ _ _ _ Hg).
  split; [|split; [|split; [reflexivity|split; [exact Hm|split; [|split]]]]].
  - eapply Forall2_impl; [|apply assign_pks_rows].
    intros a s. apply row_of_built_from.
  - apply Forall_forall. intros s Hin. now apply (inserted_pk self ad st).
  - intros m Hin Hin'. apply filter_In in Hin as [_ Hd].
    apply (mentions_cleared_forced _ _ _ Hh) in Hin' as [_ Hn].
    congruence.
  - intros Hwf s Hin Hin'. apply filter_In in Hin as [Hin Hd].
    apply in_app_or in Hin' as [Hin'|Hin'].
    + rewrite cleared_sentences_forced in Hin' by assumption.
      apply filter_In in Hin' as [_ Hn]. rewrite Hd in Hn. discriminate.
    + destruct (inserted_pk _ _ _ _ Hin') as (k & Hk & Hle).
      specialize (Hwf s k Hin Hk). lia.
  - intros w' e He.
    rewrite (annotate_block_stopped_by_service _ _ _ _ _ Hh He). simpl.
    rewrite <- Hc.
    split; [reflexivity|]. split; [reflexivity|].
    split; [now apply cleared_has_none|exact Hm].
Qed.

Lemma annotate_force_replaces_witness :
  exists ad,
    service example_world (Document.gloss example_document) [] = inr ad
    /\ Forall2 (built_from example_document) (CoreNLP.sentences ad)
         (Sentence_filter_doc example_document
            (db (snd (annotate example_world example_document true []
                               annotated_state))))
    /\ (forall s,
          In s (Sentence_filter_doc example_document (db annotated_state)) ->
          ~ In s (sentences
                    (db (snd (annotate example_world example_document true []
                                       annotated_state)))))
    /\ Sentence_filter_doc example_document
         (db (snd (annotate_block down_world example_document true []
                                  annotated_state))) = [].
Proof.
  assert (Hwf : pks_below_seq annotated_state).
  { intros s k Hin Hk. vm_compute in Hin.
    repeat (destruct Hin as [<-|Hin];
            [vm_compute in Hk; injection Hk as <-; reflexivity|]).
    contradiction. }
  destruct (annotate_force_replaces example_world example_document []
              annotated_state eq_refl eq_refl)
    as (ad & Hs & Hb & _ & _ & _ & _ & Hgone & Hfirst).
  exists ad. split; [assumption|]. split; [assumption|].
  split; [now apply Hgone|].
  now apply (Hfirst down_world (ServiceError "connection refused")).
Defined.

(** C4. A successful [annotate] that reaches the recompute step appends
    to the Sentence table one row per result of the service, in the
    order of the response, and each row has the fields the constructor
    call gives it: [corpus_id] and [doc] from the document, the index,
    the four token sequences and the dependencies from the result, the
    begin and end offsets from the first and second components of the
    token spans, and the cleaned text as [gloss]. *)
Theorem annotate_builds_one_sentence_per_result w self force kwargs st :
  has_sentences self st && negb force = false ->
  fst (annotate w self force kwargs st) = Ok tt ->
  exists ad new,
    service w (Document.gloss self) kwargs = inr ad
    /\ sentences (db (snd (annotate w self force kwargs st)))
       = sentences (cleared self force st) ++ new
    /\ Sentence_filter_doc self (db (snd (annotate w self force kwargs st)))
       = new
    /\ List.length new = List.length (CoreNLP.sentences ad)
    /\ Forall2 (built_from self) (CoreNLP.sentences ad) new.
Proof.
  intros Hg Hok.
  destruct (annotate_ok_inv _ _ _ _ _ Hok Hg) as (ad & Hs & _ & ->).
  exists ad, (inserted self ad st). split; [assumption|].
  unfold Sentence_filter_doc. simpl. split; [reflexivity|].
  split; [now apply success_sentences_of|].
  assert (F : Forall2 (row_of self) (CoreNLP.sentences ad) (inserted self ad st))
    by apply assign_pks_rows.
  split.
  - symmetry. eapply Forall2_length; eassumption.
  - eapply Forall2_impl; [|exact F]. intros a s. apply row_of_built_from.
Qed.

Lemma annotate_builds_one_sentence_per_result_witness :
  exists ad new,
    service example_world (Document.gloss example_document) [] = inr ad
    /\ sentences (db (snd (annotate example_world example_document false []
                                    fresh_state)))
       = sentences (cleared example_document false fresh_state) ++ new
    /\ Sentence_filter_doc example_document
         (db (snd (annotate example_world example_document false []
                            fresh_state)))
       = new
    /\ List.length new = List.length (CoreNLP.sentences ad)
    /\ Forall2 (built_from example_document) (CoreNLP.sentences ad) new.
Proof.
  apply (annotate_builds_one_sentence_per_result example_world example_document
           false [] fresh_state); reflexivity.
Defined.

(** ** Rows no call adds or takes away *)

Lemma cleared_sentences_incl self force st s :
  In s (sentences (cleared self force st)) -> In s (sentences (db st)).
Proof.
  unfold cleared. destruct (_ && _); simpl; [|easy].
  intros H. now apply filter_In in H.
Qed.

Lemma cleared_mentions_incl self force st m :
  In m (mentions (cleared self force st)) -> In m (mentions (db st)).
Proof.
  unfold cleared. destruct (_ && _); simpl; [|easy].
  intros H. apply filter_In in H as [H _]. now apply filter_In in H.
Qed.

Lemma cleared_relations_incl self force st r :
  In r (relations (cleared self force st)) -> In r (relations (db st)).
Proof.
  unfold cleared. destruct (_ && _); simpl; [|easy].
  intros H. apply filter_In in H as [H _]. now apply filter_In in H.
Qed.

Lemma Forall2_In_r {A B} (R : A -> B -> Prop) l l' y :
  Forall2 R l l' -> In y l' -> exists x, In x l /\ R x y.
Proof.
  induction 1 as [|x y' l l' HR F IH]; simpl; [easy|].
  intros [<-|Hin].
  - exists x. auto.
  - destruct (IH Hin) as (x' & Hx & HR'). exists x'. auto.
Qed.

(** A Sentence row that a call adds was written for a result of the
    response. *)
Lemma new_sentence_inv w self force kwargs st s :
  In s (sentences (db (snd (annotate w self force kwargs st)))) ->
  ~ In s (sentences (db st)) ->
  exists ad a,
    service w (Document.gloss self) kwargs = inr ad
    /\ In a (CoreNLP.sentences ad)
    /\ row_of self a s.
Proof.
  intros Hin Hold.
  pose proof (annotate_total w self force kwargs st) as C.
  destruct (annotate w self force kwargs st) as [r st'].
  inversion C; subst; simpl in Hin; try contradiction.
  apply in_app_or in Hin as [Hin|Hin].
  - apply cleared_sentences_incl in Hin. contradiction.
  - exists ad. unfold inserted in Hin.
    pose proof (assign_pks_rows self (sentence_id_seq st) (CoreNLP.sentences ad))
      as F.
    destruct (Forall2_In_r _ _ _ _ F Hin) as (a & Ha & Hr).
    exists a. auto.
Qed.

(** ** Token-parallel fields *)

Lemma new_Sentence_offsets self a k :
  let s := Sentence.with_id k (new_Sentence self a) in
  List.length (Sentence.doc_char_begin s) = List.length (CoreNLP.tokens a)
  /\ List.length (Sentence.doc_char_end s) = List.length (CoreNLP.tokens a).
Proof. simpl. now rewrite !length_map. Qed.

Lemma new_Sentence_parallel self a k :
  result_parallel a = true ->
  Sentence_parallel (Sentence.with_id k (new_Sentence self a)) = true.
Proof.
  unfold result_parallel, Sentence_parallel. simpl. rewrite !length_map.
  intros H. repeat (apply andb_prop in H as [H ?]).
  repeat match goal with
         | E : Nat.eqb _ _ = true |- _ => apply Nat.eqb_eq in E; rewrite E
         end.
  now rewrite Nat.eqb_refl.
Qed.

(** C5, as amended.  Every Sentence row that a call of [annotate] adds
    was written for one result of the response; its [doc_char_begin] and
    [doc_char_end] have one entry per token of that result, and when the
    result carries one word, lemma, POS tag and NER tag per token, the six
    fields of the row have equal length.  [annotate] copies the sequences
    and checks nothing. *)
Theorem persisted_sentence_parallel w self force kwargs st s :
  In s (sentences (db (snd (annotate w self force kwargs st)))) ->
  ~ In s (sentences (db st)) ->
  exists ad a,
    service w (Document.gloss self) kwargs = inr ad
    /\ In a (CoreNLP.sentences ad)
    /\ built_from self a s
    /\ List.length (Sentence.doc_char_begin s) = List.length (CoreNLP.tokens a)
    /\ List.length (Sentence.doc_char_end s) = List.length (CoreNLP.tokens a)
    /\ (result_parallel a = true -> Sentence_parallel s = true).
Proof.
  intros Hin Hold.
  destruct (new_sentence_inv _ _ _ _ _ _ Hin Hold) as (ad & a & Hs & Ha & Hr).
  exists ad, a. split; [assumption|]. split; [assumption|].
  split; [now apply row_of_built_from|].
  destruct Hr as [k ->].
  split; [apply new_Sentence_offsets|]. split; [apply new_Sentence_offsets|].
  apply new_Sentence_parallel.
Qed.

Lemma persisted_sentence_parallel_witness :
  let s := Sentence.with_id 1 (new_Sentence example_document
                                 (hd (CoreNLP.mkSentence 0 [] [] [] [] [] None "" "")
                                     (CoreNLP.sentences example_response))) in
  Sentence_parallel s = true.
Proof.
  intros s.
  assert (Hin : In s (sentences (db (snd (annotate example_world example_document
                                                   false [] fresh_state)))))
    by (left; reflexivity).
  assert (Hold : ~ In s (sentences (db fresh_state))) by (intros []).
  destruct (persisted_sentence_parallel example_world example_document false []
              fresh_state s Hin Hold)
    as (ad & a & Hs & Ha & Hb & _ & _ & Hp).
  apply Hp.
  injection Hs as <-.
  destruct Ha as [<-|[<-|[]]]; reflexivity.
Defined.

(** C5 as stated fails: for a response with two words on one token the
    row is written as it comes, with two words and one begin offset. *)
Lemma ragged_response_persisted :
  let st' := snd (annotate ragged_world example_document false [] fresh_state) in
  fst (annotate ragged_world example_document false [] fresh_state) = Ok tt
  /\ exists s,
       In s (sentences (db st'))
       /\ List.length (Sentence.words s) = 2%nat
       /\ List.length (Sentence.doc_char_begin s) = 1%nat
       /\ Sentence_parallel s = false.
Proof.
  split; [reflexivity|].
  eexists. split; [left; reflexivity|]. repeat split.
Qed.

(** ** Order by [sentence_index] *)

Lemma insert_by_index_perm s l : Permutation (s :: l) (insert_by_index s l).
Proof.
  induction l as [|h t IH]; simpl; [reflexivity|].
  destruct (_ <=? _)%Z; [reflexivity|].
  rewrite perm_swap. now apply perm_skip.
Qed.

Lemma sort_by_index_perm l : Permutation l (sort_by_index l).
Proof.
  induction l as [|s l IH]; simpl; [reflexivity|].
  rewrite <- insert_by_index_perm. now apply perm_skip.
Qed.

Lemma insert_by_index_sorted s l :
  StronglySorted index_le l -> StronglySorted index_le (insert_by_index s l).
Proof.
  induction 1 as [|h t Ht IH Hh]; simpl.
  - repeat constructor.
  - destruct (_ <=? _)%Z eqn:E.
    + apply Z.leb_le in E. constructor; [now constructor|].
      constructor; [exact E|].
      eapply Forall_impl; [|exact Hh]. unfold index_le. intros; lia.
    + apply Z.leb_gt in E. constructor; [assumption|].
      apply (Permutation_Forall (insert_by_index_perm s t)).
      constructor; [unfold index_le; lia|assumption].
Qed.

Lemma sort_by_index_sorted l : StronglySorted index_le (sort_by_index l).
Proof.
  induction l as [|s l IH]; simpl; [constructor|].
  now apply insert_by_index_sorted.
Qed.

(** A list sorted by index is the only sorted arrangement of its rows
    when no two rows share an index. *)
Lemma sorted_unique l1 l2 :
  StronglySorted index_le l1 ->
  StronglySorted index_lt l2 ->
  Permutation l1 l2 ->
  l1 = l2.
Proof.
  intros H1 H2. revert l1 H1.
  induction H2 as [|x l2 H2 IH Hx]; intros l1 H1 P.
  - apply Permutation_nil. now symmetry.
  - destruct l1 as [|y l1].
    + now apply Permutation_nil in P.
    + apply StronglySorted_inv in H1 as [H1 Hy].
      assert (y = x) as ->.
      { assert (Iy : In y (x :: l2))
          by (apply (Permutation_in _ P); now left).
        assert (Ix : In x (y :: l1))
          by (apply (Permutation_in _ (Permutation_sym P)); now left).
        destruct Iy as [->|Iy]; [reflexivity|].
        destruct Ix as [->|Ix]; [reflexivity|].
        rewrite Forall_forall in Hx, Hy.
        specialize (Hx _ Iy). specialize (Hy _ Ix).
        unfold index_lt, index_le in *. lia. }
      f_equal. apply IH; [assumption|].
      now apply Permutation_cons_inv in P.
Qed.

Lemma assign_pks_indices n objs :
  map Sentence.sentence_index (assign_pks n objs)
  = map Sentence.sentence_index objs.
Proof.
  revert n. induction objs as [|o objs IH]; simpl; intros n; [reflexivity|].
  now rewrite IH.
Qed.

Lemma StronglySorted_map_lt (l : list Sentence.t) :
  StronglySorted Z.lt (map Sentence.sentence_index l) ->
  StronglySorted index_lt l.
Proof.
  induction l as [|s l IH]; simpl; intros H; [constructor|].
  apply StronglySorted_inv in H as [H Hs].
  constructor; [now apply IH|].
  rewrite Forall_forall in *. intros x Hx.
  apply Hs. now apply in_map.
Qed.

Lemma inserted_sorted self ad st :
  increasing_indices ad -> StronglySorted index_lt (inserted self ad st).
Proof.
  unfold increasing_indices, inserted. intros H.
  apply StronglySorted_map_lt.
  rewrite assign_pks_indices, map_map. exact H.
Qed.

(** C6, as amended.  After a successful [annotate] that called the
    service, when the indices in the response are strictly increasing,
    the Sentences of the document sorted by [sentence_index], in whatever
    order the table gives them, are the rows written for the results of
    the response, in the order of the response. *)
Theorem sorted_sentences_follow_response w self force kwargs st :
  has_sentences self st && negb force = false ->
  fst (annotate w self force kwargs st) = Ok tt ->
  exists ad,
    service w (Document.gloss self) kwargs = inr ad
    /\ (increasing_indices ad ->
        forall l,
          Permutation l (Sentence_filter_doc self
                           (db (snd (annotate w self force kwargs st)))) ->
          Forall2 (row_of self) (CoreNLP.sentences ad) (sort_by_index l)
          /\ map Sentence.sentence_index (sort_by_index l)
             = map CoreNLP.sentence_index (CoreNLP.sentences ad)).
Proof.
  intros Hg Hok.
  destruct (annotate_ok_inv _ _ _ _ _ Hok Hg) as (ad & Hs & _ & ->).
  exists ad. split; [assumption|].
  unfold Sentence_filter_doc. simpl. rewrite (success_sentences_of _ _ _ _ Hg).
  intros Hinc l P.
  assert (E : sort_by_index l = inserted self ad st).
  { apply sorted_unique.
    - apply sort_by_index_sorted.
    - now apply inserted_sorted.
    - now rewrite <- sort_by_index_perm. }
  rewrite E. split; [apply assign_pks_rows|].
  unfold inserted. now rewrite assign_pks_indices, map_map.
Qed.

Lemma sorted_sentences_follow_response_witness :
  exists ad,
    service example_world (Document.gloss example_document) [] = inr ad
    /\ Forall2 (row_of example_document) (CoreNLP.sentences ad)
         (sort_by_index
            (rev (Sentence_filter_doc example_document
                    (db (snd (annotate example_world example_document true []
                                       annotated_state)))))).
Proof.
  destruct (sorted_sentences_follow_response example_world example_document
              true [] annotated_state eq_refl eq_refl) as (ad & Hs & H).
  exists ad. split; [assumption|].
  apply H.
  - injection Hs as <-. repeat constructor.
  - symmetry. apply Permutation_rev.
Defined.

(** C6 as stated fails: the index is copied from each result, so for a
    response that lists index 1 before index 0 the sorted Sentences come
    in the opposite order of the response. *)
Lemma reversed_response_sorted :
  let st' := snd (annotate reversed_world example_document false []
                           fresh_state) in
  fst (annotate reversed_world example_document false [] fresh_state) = Ok tt
  /\ map CoreNLP.clean_text (CoreNLP.sentences reversed_response)
     = ["He visited Paris."; "Obama was president."]
  /\ map Sentence.gloss
         (sort_by_index (Sentence_filter_doc example_document (db st')))
     = ["Obama was president."; "He visited Paris."]
  /\ ~ Forall2 (row_of example_document)
         (CoreNLP.sentences reversed_response)
         (sort_by_index (Sentence_filter_doc example_document (db st'))).
Proof.
  repeat split.
  intros F. vm_compute in F. inversion F as [|a s la ls [k Hk] _]; subst.
  discriminate.
Qed.

(** ** Mentions, Documents and the call of the service *)

Lemma Mention_bulk_create_nil st : Mention_bulk_create [] st = (Ok tt, st).
Proof.
  unfold Mention_bulk_create, update. destruct st as [[d s m r] n c]; simpl.
  now rewrite app_nil_r.
Qed.

Lemma filter_filter {A} (f g : A -> bool) l :
  filter f (filter g l) = filter (fun x => g x && f x) l.
Proof.
  induction l as [|a l IH]; simpl; [reflexivity|].
  destruct (g a); simpl; [destruct (f a)|]; now rewrite IH.
Qed.

Lemma cleared_mentions_filter self force st :
  exists keep, mentions (cleared self force st) = filter keep (mentions (db st)).
Proof.
  unfold cleared. destruct (_ && _); simpl.
  - rewrite filter_filter. eauto.
  - exists (fun _ => true). symmetry. now apply filter_all.
Qed.

(** C7. No call of [annotate] creates a Mention row: the insert of
    Mentions is given the empty list and changes nothing, and the Mention
    table after any call, whatever the document, the flag, the options and
    the world, is the table before with some rows filtered out.  In the
    example scenario the call writes exactly two Sentence rows, with
    indices 0 and 1 and the cleaned texts as glosses, and the Mention
    table stays empty. *)
Theorem annotate_creates_no_mention :
  (forall st, Mention_bulk_create [] st = (Ok tt, st))
  /\ (forall w self force kwargs st,
        exists keep,
          mentions (db (snd (annotate w self force kwargs st)))
          = filter keep (mentions (db st)))
  /\ fst (annotate example_world example_document false [] fresh_state) = Ok tt
  /\ List.length
       (sentences
          (db (snd (annotate example_world example_document false []
                             fresh_state)))) = 2%nat
  /\ map Sentence.sentence_index
         (sentences
            (db (snd (annotate example_world example_document false []
                               fresh_state)))) = [0; 1]%Z
  /\ map Sentence.gloss
         (sentences
            (db (snd (annotate example_world example_document false []
                               fresh_state))))
     = ["Obama was president."; "He visited Paris."]
  /\ mentions
       (db (snd (annotate example_world example_document false []
                          fresh_state))) = [].
Proof.
  split; [apply Mention_bulk_create_nil|]. split; [|repeat split].
  intros w self force kwargs st.
  pose proof (annotate_total w self force kwargs st) as C.
  destruct (annotate w self force kwargs st) as [r st'].
  inversion C; subst; simpl;
    try (exists (fun _ => true); symmetry; now apply filter_all).
  apply cleared_mentions_filter.
Qed.

(** C8. No call of [annotate] changes the Document table: whatever the
    flag, the options, the answer of the service and the outcome, every
    Document row, the receiver's among them, has after the call the [id],
    [corpus_id], [source], [timestamp], [title], [gloss] and [metadata]
    it had before. *)
Theorem annotate_keeps_documents w self force kwargs st :
  documents (db (snd (annotate w self force kwargs st))) = documents (db st).
Proof.
  pose proof (annotate_total w self force kwargs st) as C.
  destruct (annotate w self force kwargs st) as [r st'].
  inversion C; subst; reflexivity.
Qed.

(** C9. [annotate] has no guard on the gloss.  A document with empty
    gloss goes the way of any other: the call is skipped when the document
    has Sentences and [force] is off; otherwise the service is called
    once, with the empty text and the options, the call returns normally
    when the service answers and the insert goes through, and an exception
    it raises is the one of the service or of the insert. *)
Theorem annotate_passes_empty_gloss w self force kwargs st :
  Document.gloss self = "" ->
  (has_sentences self st && negb force = true ->
   annotate w self force kwargs st = (Ok tt, st))
  /\ (has_sentences self st && negb force = false ->
      service_calls (snd (annotate w self force kwargs st))
      = service_calls st ++ [("", kwargs)]
      /\ (forall ad, service w "" kwargs = inr ad ->
                     CoreNLP.sentences ad = [] \/ bulk_create_fault w = None ->
                     fst (annotate w self force kwargs st) = Ok tt)
      /\ (forall e, fst (annotate w self force kwargs st) = Raise e ->
                    service w "" kwargs = inl e
                    \/ (exists ad, service w "" kwargs = inr ad
                                   /\ CoreNLP.sentences ad <> []
                                   /\ e = DatabaseError "bulk_create"))).
Proof.
  intros Hgloss. split.
  { intros H. apply andb_prop in H as [Hh Hf].
    apply negb_true_iff in Hf. subst force. now apply annotate_skip. }
  intros Hg.
  pose proof (annotate_total w self force kwargs st) as C.
  destruct (annotate w self force kwargs st) as [r st'].
  inversion C as [Hh Hf | e Hg' Hs | ad k Hg' Hs Hne Hf | ad Hg' Hs Hf];
    subst; simpl; unfold called; try rewrite Hgloss in *.
  - rewrite Hh in Hg. discriminate.
  - split; [reflexivity|]. split; [intros; congruence|].
    intros e' [= <-]. now left.
  - split; [reflexivity|]. split.
    + intros ad' Hs' [Hn|Hf']; congruence.
    + intros e' [= <-]. right. eauto.
  - split; [reflexivity|]. split; [reflexivity|]. discriminate.
Qed.

Lemma annotate_passes_empty_gloss_witness :
  service_calls (snd (annotate silent_world blank_document false []
                               fresh_state))
  = service_calls fresh_state ++ [("", [])]
  /\ fst (annotate silent_world blank_document false [] fresh_state) = Ok tt.
Proof.
  destruct (annotate_passes_empty_gloss silent_world blank_document false []
              fresh_state eq_refl) as [_ H].
  destruct (H eq_refl) as (Hc & Hok & _).
  split; [exact Hc|].
  apply (Hok (CoreNLP.mkDocument [])); [reflexivity|now left].
Defined.

(** ** Rows of other documents *)

Lemma pk_in_incl ks ks' k :
  incl ks ks' -> pk_in ks k = true -> pk_in ks' k = true.
Proof.
  unfold pk_in. intros Hi H. apply existsb_exists in H as (x & Hx & E).
  apply existsb_exists. exists x. auto.
Qed.

Lemma fk_in_incl ks ks' k :
  incl ks ks' -> fk_in ks k = true -> fk_in ks' k = true.
Proof. destruct k as [k|]; simpl; [apply pk_in_incl|easy]. Qed.

Lemma Relation_cascades_incl ks ks' km km' r :
  incl ks ks' -> incl km km' ->
  Relation_cascades ks km r = true -> Relation_cascades ks' km' r = true.
Proof.
  unfold Relation_cascades. intros Hs Hm H.
  apply orb_true_iff in H as [H|H]; [apply orb_true_iff in H as [H|H]|].
  - now rewrite (pk_in_incl _ _ _ Hs H).
  - rewrite (fk_in_incl _ _ _ Hm H). now rewrite orb_true_r.
  - rewrite (fk_in_incl _ _ _ Hm H). now rewrite orb_true_r.
Qed.

Lemma incl_map_filter {A B} (g : A -> B) (p q : A -> bool) l l' :
  (forall x, In x l -> p x = true -> In x l' /\ q x = true) ->
  incl (map g (filter p l)) (map g (filter q l')).
Proof.
  intros H y Hy. apply in_map_iff in Hy as (x & <- & Hx).
  apply filter_In in Hx as [Hx Hp]. apply in_map, filter_In. now apply H.
Qed.

Lemma cleared_mention_kept self force st m :
  In m (mentions (db st)) ->
  Mention_removed self st m = false ->
  In m (mentions (cleared self force st)).
Proof.
  unfold cleared, Mention_removed. intros Hin H.
  apply orb_false_iff in H as [Hd Hk].
  destruct (_ && _); simpl; [|assumption].
  apply filter_In. split; [|now rewrite Hd].
  apply filter_In. split; [assumption|now rewrite Hk].
Qed.

Lemma cleared_relation_kept self force st r :
  In r (relations (db st)) ->
  Relation_removed self st r = false ->
  In r (relations (cleared self force st)).
Proof.
  unfold cleared, Relation_removed. intros Hin H.
  destruct (_ && _); simpl; [|assumption].
  apply filter_In. split; [apply filter_In; split; [assumption|]|];
    apply negb_true_iff;
    match goal with
    | |- ?c = false => destruct c eqn:E; [|reflexivity]
    end;
    rewrite <- H; symmetry;
    (eapply Relation_cascades_incl; [| |exact E]);
    try apply incl_refl; try (intros x []);
    apply incl_map_filter; unfold Mention_removed.
  - intros x Hx Hp. split; [assumption|]. rewrite Hp. apply orb_true_r.
  - simpl. intros x Hx Hp. apply filter_In in Hx as [Hx _].
    split; [assumption|]. now rewrite Hp.
Qed.

Lemma cleared_other_sentences self force st :
  filter (fun s => negb (is_doc self s)) (sentences (cleared self force st))
  = filter (fun s => negb (is_doc self s)) (sentences (db st)).
Proof.
  unfold cleared. destruct (_ && _); simpl; [|reflexivity].
  rewrite filter_filter. apply filter_ext. intros s. apply andb_diag.
Qed.

Lemma other_document_sentences self other l :
  Document.id other <> Document.id self ->
  filter (is_doc other) l
  = filter (is_doc other) (filter (fun s => negb (is_doc self s)) l).
Proof.
  intros Hne. rewrite filter_filter. apply filter_ext. intros s.
  unfold is_doc. destruct (String.eqb_spec (Sentence.doc s) (Document.id self));
    simpl; [|reflexivity].
  apply String.eqb_neq. congruence.
Qed.

(** C10, as amended.  A call of [annotate] on one document leaves the
    Document table alone, and leaves the Sentences of every other
    document exactly as they were: the only Sentence rows it removes or
    adds have the receiver as [doc].  It adds no Mention and no Relation
    row.  A Mention row stays unless its [doc] is the receiver or its
    [sentence] is one of the receiver's Sentences; a Relation row stays
    unless its [sentence] is one of the receiver's Sentences or its
    [entity] or [slot_value] is such a Mention: those rows go with the
    forced delete, by cascade of the foreign keys. *)
Theorem annotate_frame w self force kwargs st :
  documents (db (snd (annotate w self force kwargs st))) = documents (db st)
  /\ (forall other,
        Document.id other <> Document.id self ->
        Sentence_filter_doc other (db (snd (annotate w self force kwargs st)))
        = Sentence_filter_doc other (db st))
  /\ (forall m,
        In m (mentions (db (snd (annotate w self force kwargs st)))) ->
        In m (mentions (db st)))
  /\ (forall m,
        In m (mentions (db st)) ->
        Mention_removed self st m = false ->
        In m (mentions (db (snd (annotate w self force kwargs st)))))
  /\ (forall r,
        In r (relations (db (snd (annotate w self force kwargs st)))) ->
        In r (relations (db st)))
  /\ (forall r,
        In r (relations (db st)) ->
        Relation_removed self st r = false ->
        In r (relations (db (snd (annotate w self force kwargs st))))).
Proof.
  pose proof (annotate_total w self force kwargs st) as C.
  destruct (annotate w self force kwargs st) as [res st'].
  inversion C as [Hh Hf | e Hg Hs | ad k Hg Hs Hne Hf | ad Hg Hs Hf];
    subst; simpl; try (repeat split; now auto).
  split; [reflexivity|]. split; [|split; [|split; [|split]]].
  - intros other Hne. unfold Sentence_filter_doc. simpl.
    rewrite (other_document_sentences self other (sentences (db st))),
            (other_document_sentences self other (_ ++ _)) by assumption.
    f_equal. rewrite filter_app, cleared_other_sentences.
    rewrite (filter_none _ (inserted self ad st)); [apply app_nil_r|].
    intros s Hin. now rewrite (inserted_is_doc _ _ _ _ Hin).
  - apply cleared_mentions_incl.
  - apply cleared_mention_kept.
  - apply cleared_relations_incl.
  - apply cleared_relation_kept.
Qed.

Lemma annotate_frame_witness :
  Sentence_filter_doc other_document
    (db (snd (annotate example_world example_document true []
                       annotated_state)))
  = [other_sentence]
  /\ In (example_mention 12 7 "doc-2" "LOCATION" "Paris" "Paris")
        (mentions (db (snd (annotate example_world example_document true []
                                     annotated_state)))).
Proof.
  destruct (annotate_frame example_world example_document true []
                           annotated_state) as (_ & Hs & _ & Hm & _).
  split.
  - rewrite (Hs other_document) by discriminate. reflexivity.
  - apply Hm; [right; right; left|]; reflexivity.
Defined.

(** C10 as stated fails on the Relation table: the forced run on the
    first document removes the Relation on its first Sentence, together
    with that Sentence and its two Mentions. *)
Lemma forced_annotate_removes_relation :
  fst (annotate example_world example_document true [] annotated_state) = Ok tt
  /\ relations (db annotated_state) = [example_relation]
  /\ relations
       (db (snd (annotate example_world example_document true []
                          annotated_state))) = [].
Proof. repeat split. Qed.

(** * Further properties of [annotate] *)

(** ** Runs that delete nothing *)

Lemma inserted_all_is_doc self ad st :
  Forall (fun s => is_doc self s = true) (inserted self ad st).
Proof. apply Forall_forall. intros s. apply inserted_is_doc. Qed.

(** When the deletes do not run, the three tables a call may touch are
    the old ones, with the new Sentences of the document at the end of
    the first. *)
Lemma annotate_without_delete w self force kwargs st :
  has_sentences self st && force = false ->
  mentions (db (snd (annotate w self force kwargs st))) = mentions (db st)
  /\ relations (db (snd (annotate w self force kwargs st))) = relations (db st)
  /\ exists new,
       sentences (db (snd (annotate w self force kwargs st)))
       = sentences (db st) ++ new
       /\ Forall (fun s => is_doc self s = true) new.
Proof.
  intros Hd.
  pose proof (annotate_total w self force kwargs st) as C.
  destruct (annotate w self force kwargs st) as [res st'].
  inversion C as [Hh Hf | e Hg Hs | ad k Hg Hs Hne Hf | ad Hg Hs Hf];
    subst; simpl;
    try (split; [reflexivity|]; split; [reflexivity|];
         exists []; split; [now rewrite app_nil_r|constructor]).
  unfold cleared. rewrite Hd.
  split; [reflexivity|]. split; [reflexivity|].
  exists (inserted self ad st). split; [reflexivity|].
  apply inserted_all_is_doc.
Qed.

(** X1. [annotate] without [force] never deletes: whatever the document,
    the options, the answer of the service and the outcome, the Mention
    and Relation tables are unchanged and the Sentence table is the old
    one followed by rows of the receiver. *)
Theorem annotate_unforced_deletes_nothing w self kwargs st :
  mentions (db (snd (annotate w self false kwargs st))) = mentions (db st)
  /\ relations (db (snd (annotate w self false kwargs st))) = relations (db st)
  /\ exists new,
       sentences (db (snd (annotate w self false kwargs st)))
       = sentences (db st) ++ new
       /\ Forall (fun s => is_doc self s = true) new.
Proof. apply annotate_without_delete, andb_false_r. Qed.

(** X2. The two deletes of a forced run are guarded by the existence of
    a Sentence of the document.  On a document without Sentences,
    [annotate] with [force=True] deletes nothing: the Mentions filed under
    the document stay, as do all other Mentions and all Relations. *)
Theorem annotate_forced_without_sentences w self kwargs st :
  has_sentences self st = false ->
  mentions (db (snd (annotate w self true kwargs st))) = mentions (db st)
  /\ Mention_filter_doc self (db (snd (annotate w self true kwargs st)))
     = Mention_filter_doc self (db st)
  /\ relations (db (snd (annotate w self true kwargs st))) = relations (db st)
  /\ exists new,
       sentences (db (snd (annotate w self true kwargs st)))
       = sentences (db st) ++ new.
Proof.
  intros Hh.
  destruct (annotate_without_delete w self true kwargs st)
    as (Hm & Hr & new & Hs & _); [now rewrite Hh|].
  unfold Mention_filter_doc. rewrite Hm.
  repeat split; try assumption. now exists new.
Qed.

Lemma annotate_forced_without_sentences_witness :
  fst (annotate example_world example_document true [] stale_state) = Ok tt
  /\ Mention_filter_doc example_document
       (db (snd (annotate example_world example_document true [] stale_state)))
     = [example_mention 20 7 "doc-1" "PERSON" "Barack_Obama" "Obama"].
Proof.
  split; [reflexivity|].
  destruct (annotate_forced_without_sentences example_world example_document
              [] stale_state eq_refl) as (_ & H & _).
  rewrite H. reflexivity.
Defined.

(** X3. A call of [annotate] calls the service at most once: not at all
    when it is skipped, and otherwise exactly once, with the gloss of the
    document and the options as the caller gave them.  The call is made
    whether or not the run then fails. *)
Theorem annotate_calls_service_once w self force kwargs st :
  service_calls (snd (annotate w self force kwargs st))
  = if has_sentences self st && negb force
    then service_calls st
    else service_calls st ++ [(Document.gloss self, kwargs)].
Proof.
  pose proof (annotate_total w self force kwargs st) as C.
  destruct (annotate w self force kwargs st) as [res st'].
  inversion C as [Hh Hf | e Hg Hs | ad k Hg Hs Hne Hf | ad Hg Hs Hf];
    subst; simpl.
  - now rewrite Hh.
  - now rewrite Hg.
  - now rewrite Hg.
  - now rewrite Hg.
Qed.

(** ** [__repr__] *)









(** ** Primary keys of the Sentence table *)

Lemma Sentence_pks_app l1 l2 :
  Sentence_pks (l1 ++ l2) = Sentence_pks l1 ++ Sentence_pks l2.
Proof. unfold Sentence_pks. apply flat_map_app. Qed.

Lemma Sentence_pks_In l k :
  In k (Sentence_pks l) <-> exists s, In s l /\ Sentence.id s = Some k.
Proof.
  unfold Sentence_pks. rewrite in_flat_map. split.
  - intros (s & Hs & Hk). exists s. split; [assumption|].
    destruct (Sentence.id s) as [k'|]; [|contradiction].
    destruct Hk as [->|[]]. reflexivity.
  - intros (s & Hs & Hk). exists s. split; [assumption|].
    rewrite Hk. now left.
Qed.

Lemma Sentence_pks_cons s l :
  Sentence_pks (s :: l)
  = match Sentence.id s with
    | Some k => k :: Sentence_pks l
    | None => Sentence_pks l
    end.
Proof. unfold Sentence_pks. simpl. now destruct (Sentence.id s). Qed.

Lemma Sentence_pks_filter_NoDup f l :
  NoDup (Sentence_pks l) -> NoDup (Sentence_pks (filter f l)).
Proof.
  induction l as [|s l IH]; [easy|].
  rewrite Sentence_pks_cons. cbn [filter]. intros H.
  assert (Hl : NoDup (Sentence_pks l))
    by (destruct (Sentence.id s); [now apply NoDup_cons_iff in H|assumption]).
  destruct (f s); [|now apply IH].
  rewrite Sentence_pks_cons.
  destruct (Sentence.id s) as [k|]; [|now apply IH].
  apply NoDup_cons_iff in H as [Hk _]. constructor; [|now apply IH].
  intros Hin. apply Hk. apply Sentence_pks_In in Hin as (x & Hx & Hid).
  apply Sentence_pks_In. exists x. split; [|assumption].
  now apply filter_In in Hx.
Qed.

Lemma assign_pks_bounds n objs k :
  In k (Sentence_pks (assign_pks n objs)) ->
  (n <= k < n + Z.of_nat (List.length objs))%Z.
Proof.
  revert n. induction objs as [|o objs IH]; simpl; intros n H; [easy|].
  destruct H as [<-|H]; [lia|].
  apply IH in H. lia.
Qed.

Lemma assign_pks_NoDup n objs : NoDup (Sentence_pks (assign_pks n objs)).
Proof.
  revert n. induction objs as [|o objs IH]; simpl; intros n; constructor.
  - intros H. apply assign_pks_bounds in H. lia.
  - apply IH.
Qed.

Lemma cleared_pks_NoDup self force st :
  Sentence_pks_unique (db st) ->
  NoDup (Sentence_pks (sentences (cleared self force st))).
Proof.
  unfold cleared, Sentence_pks_unique. destruct (_ && _); simpl; [|easy].
  apply Sentence_pks_filter_NoDup.
Qed.

(** X6. [annotate] keeps the keys of the Sentence table in order: if
    every stored key is below the sequence and no two stored Sentences
    share a key, the same holds after the call, whatever its outcome, and
    the sequence has not gone back.  The rows a forced run writes thus
    never take the key of a row that was there before, deleted or not. *)
Theorem annotate_keeps_keys w self force kwargs st :
  pks_below_seq st ->
  Sentence_pks_unique (db st) ->
  pks_below_seq (snd (annotate w self force kwargs st))
  /\ Sentence_pks_unique (db (snd (annotate w self force kwargs st)))
  /\ (sentence_id_seq st
      <= sentence_id_seq (snd (annotate w self force kwargs st)))%Z.
Proof.
  intros Hb Hu.
  pose proof (annotate_total w self force kwargs st) as C.
  destruct (annotate w self force kwargs st) as [res st'].
  inversion C as [Hh Hf | e Hg Hs | ad k Hg Hs Hne Hf | ad Hg Hs Hf];
    subst; simpl.
  - split; [assumption|]. split; [assumption|lia].
  - split; [exact Hb|]. split; [assumption|lia].
  - split; [|split; [assumption|lia]].
    intros s k' Hin Hk. simpl in *. specialize (Hb s k' Hin Hk). lia.
  - assert (Hlen : List.length (map (new_Sentence self) (CoreNLP.sentences ad))
                   = List.length (CoreNLP.sentences ad)) by apply length_map.
    split; [|split; [|lia]].
    + intros s k Hin Hk. simpl in *. apply in_app_or in Hin as [Hin|Hin].
      * apply cleared_sentences_incl in Hin. specialize (Hb s k Hin Hk). lia.
      * assert (Hin' : In k (Sentence_pks (inserted self ad st)))
          by (apply Sentence_pks_In; eauto).
        apply assign_pks_bounds in Hin'. lia.
    + unfold Sentence_pks_unique. simpl. rewrite Sentence_pks_app.
      apply NoDup_app.
      * now apply cleared_pks_NoDup.
      * apply assign_pks_NoDup.
      * intros k Hold Hnew.
        apply Sentence_pks_In in Hold as (s & Hin & Hk).
        apply cleared_sentences_incl in Hin. specialize (Hb s k Hin Hk).
        apply assign_pks_bounds in Hnew. lia.
Qed.

Lemma annotated_state_pks_below_seq : pks_below_seq annotated_state.
Proof.
  intros s k Hin Hk. vm_compute in Hin.
  repeat (destruct Hin as [<-|Hin];
          [vm_compute in Hk; injection Hk as <-; reflexivity|]).
  contradiction.
Defined.

Lemma annotated_state_pks_unique : Sentence_pks_unique (db annotated_state).
Proof.
  unfold Sentence_pks_unique. vm_compute.
  repeat (constructor; [simpl; intuition discriminate|]). constructor.
Defined.

Lemma annotate_keeps_keys_witness :
  Sentence_pks_unique
    (db (snd (annotate example_world example_document true []
                       annotated_state)))
  /\ Sentence_pks
       (sentences (db (snd (annotate example_world example_document true []
                                     annotated_state))))
     = [7; 8; 9]%Z.
Proof.
  split; [|reflexivity].
  apply (annotate_keeps_keys example_world example_document true []
           annotated_state annotated_state_pks_below_seq
           annotated_state_pks_unique).
Defined.

(** ** Foreign keys after the cascades *)

Lemma pk_in_In ks k : pk_in ks k = true <-> In k ks.
Proof.
  unfold pk_in. rewrite existsb_exists. split.
  - intros (x & Hx & E). apply Z.eqb_eq in E. now subst.
  - intros H. exists k. split; [assumption|apply Z.eqb_refl].
Qed.

Lemma Relation_cascades_false ks km r :
  Relation_cascades ks km r = false ->
  pk_in ks (Relation.sentence r) = false
  /\ fk_in km (Relation.entity r) = false
  /\ fk_in km (Relation.slot_value r) = false.
Proof.
  unfold Relation_cascades. intros H.
  apply orb_false_iff in H as [H ?]. apply orb_false_iff in H as [? ?]. auto.
Qed.

(** A Sentence that no deleted key names is not one of the deleted. *)
Lemma Sentence_kept self d k :
  Sentence_stored d k ->
  pk_in (Sentence_pks (Sentence_filter_doc self d)) k = false ->
  Sentence_stored (delete_sentences_of self d) k.
Proof.
  intros (s & Hin & Hk) Hn. exists s. split; [|assumption].
  simpl. apply filter_In. split; [assumption|].
  destruct (is_doc self s) eqn:E; [|reflexivity].
  assert (pk_in (Sentence_pks (Sentence_filter_doc self d)) k = true);
    [|congruence].
  apply pk_in_In, Sentence_pks_In. exists s. split; [|assumption].
  now apply filter_In.
Qed.

Lemma fk_kept (stored stored' : Z -> Prop) km k :
  (forall x, stored x -> pk_in km x = false -> stored' x) ->
  fk_stored stored k -> fk_in km k = false -> fk_stored stored' k.
Proof. destruct k as [k|]; simpl; auto. Qed.

Lemma delete_sentences_of_references self d :
  references_ok d -> references_ok (delete_sentences_of self d).
Proof.
  intros [Hm Hr].
  set (ks := Sentence_pks (Sentence_filter_doc self d)).
  assert (Hkeep : forall x,
             Mention_stored d x ->
             pk_in (map Mention.id
                        (filter (fun m => pk_in ks (Mention.sentence m))
                                (mentions d))) x = false ->
             Mention_stored (delete_sentences_of self d) x).
  { intros x (m & Hin & Hid) Hn. exists m. split; [|assumption].
    simpl. apply filter_In. split; [assumption|]. fold ks.
    destruct (pk_in ks (Mention.sentence m)) eqn:E; [|reflexivity].
    exfalso. apply not_true_iff_false in Hn. apply Hn.
    apply pk_in_In. rewrite <- Hid. apply in_map, filter_In. auto. }
  split.
  - intros m Hin. simpl in Hin. apply filter_In in Hin as [Hin Hn].
    apply negb_true_iff in Hn. now apply Sentence_kept; [apply Hm|].
  - intros r Hin. simpl in Hin. apply filter_In in Hin as [Hin Hn].
    apply negb_true_iff, Relation_cascades_false in Hn as (Hs & He & Hv).
    destruct (Hr r Hin) as (Hs' & He' & Hv').
    split; [now apply Sentence_kept|].
    split; eapply fk_kept; eauto.
Qed.

Lemma delete_mentions_of_references self d :
  references_ok d -> references_ok (delete_mentions_of self d).
Proof.
  intros [Hm Hr].
  assert (Hkeep : forall x,
             Mention_stored d x ->
             pk_in (map Mention.id (Mention_filter_doc self d)) x = false ->
             Mention_stored (delete_mentions_of self d) x).
  { intros x (m & Hin & Hid) Hn. exists m. split; [|assumption].
    simpl. apply filter_In. split; [assumption|].
    destruct (mention_is_doc self m) eqn:E; [|reflexivity].
    exfalso. apply not_true_iff_false in Hn. apply Hn.
    apply pk_in_In. rewrite <- Hid. apply in_map, filter_In. auto. }
  split.
  - intros m Hin. simpl in Hin. apply filter_In in Hin as [Hin _].
    exact (Hm m Hin).
  - intros r Hin. simpl in Hin. apply filter_In in Hin as [Hin Hn].
    apply negb_true_iff, Relation_cascades_false in Hn as (_ & He & Hv).
    destruct (Hr r Hin) as (Hs' & He' & Hv').
    split; [exact Hs'|].
    split; eapply fk_kept; eauto.
Qed.

Lemma cleared_references self force st :
  references_ok (db st) -> references_ok (cleared self force st).
Proof.
  unfold cleared. destruct (_ && _); [|easy].
  intros H. now apply delete_mentions_of_references, delete_sentences_of_references.
Qed.

(** X7. [annotate] leaves no dangling reference: if every Mention and
    Relation points to a stored Sentence and every entity and slot value
    of a Relation to a stored Mention, the same holds after the call,
    whatever its outcome.  The rows that the forced delete would orphan go
    with it. *)
Theorem annotate_keeps_references w self force kwargs st :
  references_ok (db st) ->
  references_ok (db (snd (annotate w self force kwargs st))).
Proof.
  intros H.
  pose proof (annotate_total w self force kwargs st) as C.
  destruct (annotate w self force kwargs st) as [res st'].
  inversion C as [Hh Hf | e Hg Hs | ad k Hg Hs Hne Hf | ad Hg Hs Hf];
    subst; simpl; try assumption.
  destruct (cleared_references self force st H) as [Hm Hr].
  assert (Hgrow : forall k,
             Sentence_stored (cleared self force st) k ->
             Sentence_stored
               (mkDatabase (documents (db st))
                  (sentences (cleared self force st) ++ inserted self ad st)
                  (mentions (cleared self force st))
                  (relations (cleared self force st))) k).
  { intros k (s & Hin & Hk). exists s. split; [|assumption].
    simpl. apply in_or_app. now left. }
  split.
  - intros m Hin. apply Hgrow. now apply Hm.
  - intros r Hin. destruct (Hr r Hin) as (Hs' & He & Hv).
    split; [now apply Hgrow|]. split; assumption.
Qed.

Lemma annotated_state_references : references_ok (db annotated_state).
Proof.
  split.
  - intros m Hin. vm_compute in Hin.
    destruct Hin as [<-|[<-|[<-|[]]]]; stored_row.
  - intros r Hin. vm_compute in Hin. destruct Hin as [<-|[]].
    split; [|split]; stored_row.
Defined.

Lemma annotate_keeps_references_witness :
  references_ok
    (db (snd (annotate example_world example_document true []
                       annotated_state))).
Proof.
  apply (annotate_keeps_references example_world example_document true []
           annotated_state annotated_state_references).
Defined.

(** ** What the forced delete removes *)

Lemma pk_in_app ks ks' k : pk_in (ks ++ ks') k = pk_in ks k || pk_in ks' k.
Proof. unfold pk_in. apply existsb_app. Qed.

(** The keys of the Mentions removed by the two deletes together. *)
Lemma removed_mention_pks (p q : Mention.t -> bool) l k :
  pk_in (map Mention.id (filter (fun m => p m || q m) l)) k
  = pk_in (map Mention.id (filter q l)) k
    || pk_in (map Mention.id (filter p (filter (fun m => negb (q m)) l))) k.
Proof.
  induction l as [|m l IH]; simpl; [reflexivity|].
  destruct (q m) eqn:Eq; destruct (p m) eqn:Ep; simpl; rewrite ?Ep; simpl;
    rewrite IH; destruct (k =? Mention.id m)%Z; simpl;
    rewrite ?orb_true_r; reflexivity.
Qed.

Lemma removed_mention_fks (p q : Mention.t -> bool) l k :
  fk_in (map Mention.id (filter (fun m => p m || q m) l)) k
  = fk_in (map Mention.id (filter q l)) k
    || fk_in (map Mention.id (filter p (filter (fun m => negb (q m)) l))) k.
Proof. destruct k as [k|]; simpl; [apply removed_mention_pks|reflexivity]. Qed.

Lemma Relation_removed_split self st r :
  Relation_removed self st r
  = Relation_cascades
      (Sentence_pks (Sentence_filter_doc self (db st)))
      (map Mention.id
         (filter (fun m => pk_in (Sentence_pks (Sentence_filter_doc self (db st)))
                                 (Mention.sentence m))
                 (mentions (db st))))
      r
    || Relation_cascades []
         (map Mention.id
            (Mention_filter_doc self (delete_sentences_of self (db st))))
         r.
Proof.
  unfold Relation_removed, Relation_cascades, Mention_filter_doc.
  cbn [delete_sentences_of mentions pk_in existsb].
  unfold Mention_removed. rewrite !removed_mention_fks.
  set (ks := Sentence_pks (Sentence_filter_doc self (db st))).
  destruct (pk_in ks (Relation.sentence r)); simpl; [reflexivity|].
  repeat match goal with |- context [fk_in ?a ?b] => destruct (fk_in a b) end;
    reflexivity.
Qed.

(** X8. What a successful forced run on a document with Sentences takes
    from the Mention and Relation tables, exactly: the Mentions filed
    under the document or sitting in one of its Sentences, the latter also
    when they are filed under another document, and the Relations in one
    of its Sentences or on one of those Mentions.  The other rows stay, in
    their order. *)
Theorem annotate_forced_removes_exactly w self kwargs st :
  has_sentences self st = true ->
  fst (annotate w self true kwargs st) = Ok tt ->
  mentions (db (snd (annotate w self true kwargs st)))
  = filter (fun m => negb (Mention_removed self st m)) (mentions (db st))
  /\ relations (db (snd (annotate w self true kwargs st)))
     = filter (fun r => negb (Relation_removed self st r)) (relations (db st)).
Proof.
  intros Hh Hok.
  assert (Hg : has_sentences self st && negb true = false)
    by apply andb_false_r.
  destruct (annotate_ok_inv _ _ _ _ _ Hok Hg) as (ad & Hs & _ & ->).
  simpl. unfold cleared. rewrite Hh. simpl. split.
  - rewrite filter_filter. apply filter_ext. intros m.
    unfold Mention_removed. rewrite negb_orb. apply andb_comm.
  - rewrite filter_filter. apply filter_ext. intros r.
    rewrite Relation_removed_split, negb_orb. reflexivity.
Qed.

Lemma annotate_forced_removes_exactly_witness :
  mentions (db (snd (annotate example_world example_document true []
                              annotated_state)))
  = [example_mention 12 7 "doc-2" "LOCATION" "Paris" "Paris"].
Proof.
  destruct (annotate_forced_removes_exactly example_world example_document []
              annotated_state eq_refl eq_refl) as [H _].
  rewrite H. reflexivity.
Defined.

(** ** A retry after the service failed *)

(** The outcome and the tables of a call depend on the state only
    through the tables and the sequence, not through the calls made
    before. *)
Lemma annotate_ignores_calls w self force kwargs d n c c' :
  fst (annotate w self force kwargs (mkState d n c))
  = fst (annotate w self force kwargs (mkState d n c'))
  /\ db (snd (annotate w self force kwargs (mkState d n c)))
     = db (snd (annotate w self force kwargs (mkState d n c')))
  /\ sentence_id_seq (snd (annotate w self force kwargs (mkState d n c)))
     = sentence_id_seq (snd (annotate w self force kwargs (mkState d n c'))).
Proof.
  set (st1 := mkState d n c). set (st2 := mkState d n c').
  assert (Hh : has_sentences self st2 = has_sentences self st1) by reflexivity.
  destruct (has_sentences self st1 && negb force) eqn:H.
  - apply andb_prop in H as [H1 Hf]. apply negb_true_iff in Hf. subst force.
    rewrite (annotate_skip w self kwargs st1 H1).
    rewrite (annotate_skip w self kwargs st2) by now rewrite Hh.
    now repeat split.
  - assert (H' : has_sentences self st2 && negb force = false)
      by now rewrite Hh.
    destruct (service w (Document.gloss self) kwargs) as [e|ad] eqn:Hs.
    + rewrite (annotate_service_error _ _ _ _ _ _ H Hs),
              (annotate_service_error _ _ _ _ _ _ H' Hs).
      now repeat split.
    + destruct (CoreNLP.sentences ad) as [|a l] eqn:El.
      * rewrite (annotate_success _ _ _ _ _ _ H Hs (or_introl El)),
                (annotate_success _ _ _ _ _ _ H' Hs (or_introl El)).
        now repeat split.
      * destruct (bulk_create_fault w) as [k|] eqn:Hf.
        -- assert (Hne : CoreNLP.sentences ad <> []) by congruence.
           rewrite (annotate_insert_error _ _ _ _ _ _ _ H Hs Hne Hf),
                   (annotate_insert_error _ _ _ _ _ _ _ H' Hs Hne Hf).
           now repeat split.
        -- rewrite (annotate_success _ _ _ _ _ _ H Hs (or_intror Hf)),
                   (annotate_success _ _ _ _ _ _ H' Hs (or_intror Hf)).
           now repeat split.
Qed.

(** X9. A call that failed at the service leaves nothing behind in the
    database: any later call of [annotate], on any document, has the
    outcome, the tables and the sequence it would have had if the failed
    call had not been made. *)
Theorem annotate_retry_after_service_failure
        w w' self self' force force' kwargs kwargs' st e :
  has_sentences self st && negb force = false ->
  service w (Document.gloss self) kwargs = inl e ->
  fst (annotate w' self' force' kwargs' (snd (annotate w self force kwargs st)))
  = fst (annotate w' self' force' kwargs' st)
  /\ db (snd (annotate w' self' force' kwargs'
                       (snd (annotate w self force kwargs st))))
     = db (snd (annotate w' self' force' kwargs' st))
  /\ sentence_id_seq (snd (annotate w' self' force' kwargs'
                                    (snd (annotate w self force kwargs st))))
     = sentence_id_seq (snd (annotate w' self' force' kwargs' st)).
Proof.
  intros Hg Hs. rewrite (annotate_service_error _ _ _ _ _ _ Hg Hs). simpl.
  destruct st as [d n c]. apply annotate_ignores_calls.
Qed.

Lemma annotate_retry_after_service_failure_witness :
  db (snd (annotate example_world example_document true []
                    (snd (annotate down_world example_document true []
                                   annotated_state))))
  = db (snd (annotate example_world example_document true [] annotated_state)).
Proof.
  apply (annotate_retry_after_service_failure down_world example_world
           example_document example_document true true [] [] annotated_state
           (ServiceError "connection refused"));
    reflexivity.
Defined.

(** ** Outcomes *)

(** X10. A forced run for which the service finds no sentence is not an
    error: the call returns normally, also when the database would refuse
    an insert, since no insert with rows is made; the Sentences the
    document had are deleted and nothing replaces them, so the document is
    left without Sentences and the next unforced call will not be
    skipped. *)
Theorem annotate_forced_empty_response w self kwargs st ad :
  service w (Document.gloss self) kwargs = inr ad ->
  CoreNLP.sentences ad = [] ->
  fst (annotate w self true kwargs st) = Ok tt
  /\ Sentence_filter_doc self (db (snd (annotate w self true kwargs st))) = []
  /\ has_sentences self (snd (annotate w self true kwargs st)) = false
  /\ sentence_id_seq (snd (annotate w self true kwargs st)) = sentence_id_seq st.
Proof.
  intros Hs He.
  assert (Hg : has_sentences self st && negb true = false)
    by apply andb_false_r.
  rewrite (annotate_success _ _ _ _ _ _ Hg Hs (or_introl He)).
  unfold has_sentences, Sentence_filter_doc. simpl.
  rewrite (success_sentences_of _ _ _ _ Hg). unfold inserted.
  rewrite He. simpl. repeat split. lia.
Qed.

Lemma annotate_forced_empty_response_witness :
  has_sentences example_document annotated_state = true
  /\ has_sentences example_document
       (snd (annotate silent_world example_document true [] annotated_state))
     = false.
Proof.
  split; [reflexivity|].
  apply (annotate_forced_empty_response silent_world example_document []
           annotated_state (CoreNLP.mkDocument [])); reflexivity.
Defined.

(** X11. [annotate] catches nothing and adds no error of its own.  When
    the call is not skipped, an exception of the service comes out as it
    is, and when the service answers the call returns normally exactly
    when the insert does not fail: the response is empty or the database
    takes the rows. *)
Theorem annotate_outcome w self force kwargs st :
  has_sentences self st && negb force = false ->
  (forall e, service w (Document.gloss self) kwargs = inl e ->
             fst (annotate w self force kwargs st) = Raise e)
  /\ (forall ad, service w (Document.gloss self) kwargs = inr ad ->
                 (fst (annotate w self force kwargs st) = Ok tt
                  <-> CoreNLP.sentences ad = [] \/ bulk_create_fault w = None)).
Proof.
  intros Hg. split.
  - intros e Hs. now rewrite (annotate_service_error _ _ _ _ _ _ Hg Hs).
  - intros ad Hs. split.
    + intros Hok.
      destruct (annotate_ok_inv _ _ _ _ _ Hok Hg) as (ad' & Hs' & H & _).
      congruence.
    + intros H. now rewrite (annotate_success _ _ _ _ _ _ Hg Hs H).
Qed.

Lemma annotate_outcome_witness :
  fst (annotate down_world example_document true [] annotated_state)
  = Raise (ServiceError "connection refused")
  /\ fst (annotate faulty_world example_document true [] annotated_state)
     <> Ok tt.
Proof.
  split.
  - apply (annotate_outcome down_world example_document true []
             annotated_state eq_refl). reflexivity.
  - intros Hok.
    apply (annotate_outcome faulty_world example_document true []
             annotated_state eq_refl) with (ad := example_response) in Hok;
      [|reflexivity].
    destruct Hok as [H|H]; discriminate.
Defined.
